(** * sara.c: the static array arena allocator, embedded and checked

    The segregated free-list allocator of [src/sara.c] is transcribed
    function by function.  Integers of the C program are [Z] with the
    wrap-around of [size_t] and the truncation of the [(int)] cast written
    out; the descriptor arrays are lists updated by index; every function
    returns in a small outcome monad that separates a normal return from a
    tripped [assert] and from an access outside an array.

    What the file does not fix is a parameter of the model: the macro
    [VEC_ARRAY_ARENA_SIZE], the presence of [NDEBUG], and the address of
    the pool.  Pointers are addresses in [Z] and pointer arithmetic is
    addition on them; [NULL] is address 0. *)

From Stdlib Require Import ZArith Lia List.
From stdpp Require Import base tactics list.
Import ListNotations.
Local Open Scope Z_scope.

(** ** Outcomes of a C call *)

Inductive result (A : Type) : Type :=
| Ret (a : A)      (* the call returns normally *)
| AssertFailed     (* an [assert] of a build without NDEBUG tripped *)
| UB.              (* an access outside an array, or an overlapping memcpy *)
Arguments Ret {A} a.
Arguments AssertFailed {A}.
Arguments UB {A}.

#[export] Instance result_ret : MRet result := fun A a => Ret a.
#[export] Instance result_bind : MBind result := fun A B f m =>
  match m with
  | Ret a => f a
  | AssertFailed => AssertFailed
  | UB => UB
  end.

(** How a loop body hands control back: [return v] out of the function,
    or on to the next iteration with the loop-carried locals. *)
Inductive ctl (R L : Type) : Type :=
| Return_ (r : R)
| Next (l : L).
Arguments Return_ {R L} r.
Arguments Next {R L} l.

(** ** Machine integers *)

(** [size_t] is taken to be 64 bits wide and [int] 32 bits wide. *)
Definition SIZE_T_MODULUS : Z := 2 ^ 64.
Definition to_size_t (x : Z) : Z := x mod SIZE_T_MODULUS.
(** The conversion [(int)x] of a [size_t]: keep the low 32 bits, read them
    as two's complement. *)
Definition to_int (x : Z) : Z :=
  let y := x mod 2 ^ 32 in if y <? 2 ^ 31 then y else y - 2 ^ 32.

(** Addresses are integers; the null pointer is address 0. *)
Definition NULL : Z := 0.

(** ** Data model *)

Definition NUM_OF_BLOCK_SIZES : nat := 6.
Definition BLKS_LARGEST_SIZE : Z := 0.

Definition BlockSize_E_to_Int : list Z := [1024; 512; 256; 128; 64; 32].

Record ArrayPoolBlock_S : Type := mkBlock
  { ptr : Z;          (* pointer to the block *)
    is_free : bool }. (* cleared when the block is allocated *)

(** A free list with the array its [blocks] pointer designates: the array
    keeps its declared capacity, [len] says how many entries are in use. *)
Record ArrayPoolBlockList_S : Type := mkList
  { blocks : list ArrayPoolBlock_S;
    block_size : Z;
    len : Z }.

Record ArrayArena_S : Type := mkArena
  { lists : list ArrayPoolBlockList_S;
    arena_initialized : bool;
    space_available : Z }.

(** The two file-scope objects: the bookkeeping and the byte pool. *)
Record state : Type := mkState
  { ArrayArena : ArrayArena_S;
    ArrayArenaPool : list Z }.

Definition set_blocks (l : ArrayPoolBlockList_S) (bs : list ArrayPoolBlock_S) :=
  mkList bs (block_size l) (len l).
Definition set_len (l : ArrayPoolBlockList_S) (n : Z) :=
  mkList (blocks l) (block_size l) n.
Definition set_lists (a : ArrayArena_S) (ls : list ArrayPoolBlockList_S) :=
  mkArena ls (arena_initialized a) (space_available a).
Definition set_space_available (a : ArrayArena_S) (n : Z) :=
  mkArena (lists a) (arena_initialized a) n.
Definition set_arena (s : state) (a : ArrayArena_S) :=
  mkState a (ArrayArenaPool s).

(** [list->blocks[i]] as an rvalue. *)
Definition read_block (l : ArrayPoolBlockList_S) (i : Z) : result ArrayPoolBlock_S :=
  if i <? 0 then UB else
  match blocks l !! Z.to_nat i with
  | Some b => Ret b
  | None => UB
  end.

(** [list->blocks[i] = b]. *)
Definition write_block (l : ArrayPoolBlockList_S) (i : Z) (b : ArrayPoolBlock_S)
  : result ArrayPoolBlockList_S :=
  if i <? 0 then UB else
  if (Z.to_nat i <? length (blocks l))%nat
  then Ret (set_blocks l (<[Z.to_nat i := b]> (blocks l)))
  else UB.

(** [list->blocks[i].ptr = p] and [list->blocks[i].is_free = f]. *)
Definition write_ptr (l : ArrayPoolBlockList_S) (i : Z) (p : Z) :=
  b ← read_block l i; write_block l i (mkBlock p (is_free b)).
Definition write_is_free (l : ArrayPoolBlockList_S) (i : Z) (f : bool) :=
  b ← read_block l i; write_block l i (mkBlock (ptr b) f).

(** [ArrayArena.lists[sz]] as an rvalue and as an assignment target. *)
Definition read_list (a : ArrayArena_S) (sz : Z) : result ArrayPoolBlockList_S :=
  if sz <? 0 then UB else
  match lists a !! Z.to_nat sz with
  | Some l => Ret l
  | None => UB
  end.
Definition write_list (a : ArrayArena_S) (sz : Z) (l : ArrayPoolBlockList_S) : ArrayArena_S :=
  set_lists a (<[Z.to_nat sz := l]> (lists a)).

(** Build-time configuration: the size of the pool, whether [assert] is
    compiled out, and the address the linker gives [ArrayArenaPool]. *)
Class Build : Type := mkBuild
  { VEC_ARRAY_ARENA_SIZE : Z;
    NDEBUG : bool;
    ArrayArenaPool_addr : Z }.

Section Sara.

Context {cfg : Build}.

Definition assert (b : bool) : result unit :=
  if NDEBUG then Ret tt else if b then Ret tt else AssertFailed.

Definition BLOCKS_1024_LIST_CAPACITY := VEC_ARRAY_ARENA_SIZE / 1024 + 1.
Definition BLOCKS_512_LIST_CAPACITY := VEC_ARRAY_ARENA_SIZE / 512 + 1.
Definition BLOCKS_256_LIST_CAPACITY := VEC_ARRAY_ARENA_SIZE / 256 + 1.
Definition BLOCKS_128_LIST_CAPACITY := VEC_ARRAY_ARENA_SIZE / 128 + 1.
Definition BLOCKS_64_LIST_CAPACITY := VEC_ARRAY_ARENA_SIZE / 64 + 1.
Definition BLOCKS_32_LIST_CAPACITY := VEC_ARRAY_ARENA_SIZE / 32 + 1.

Definition BLOCKS_1024_LIST_INIT_LEN := VEC_ARRAY_ARENA_SIZE / 1024 + 1.
Definition BLOCKS_512_LIST_INIT_LEN := (VEC_ARRAY_ARENA_SIZE mod 1024) / 512 + 1.
Definition BLOCKS_256_LIST_INIT_LEN := (VEC_ARRAY_ARENA_SIZE mod 512) / 256 + 1.
Definition BLOCKS_128_LIST_INIT_LEN := (VEC_ARRAY_ARENA_SIZE mod 256) / 128 + 1.
Definition BLOCKS_64_LIST_INIT_LEN := (VEC_ARRAY_ARENA_SIZE mod 128) / 64 + 1.
Definition BLOCKS_32_LIST_INIT_LEN := (VEC_ARRAY_ARENA_SIZE mod 64) / 32 + 1.

(** A file-scope array without initialiser is zeroed: null pointers, flags
    false. *)
Definition zero_blocks (capacity : Z) : list ArrayPoolBlock_S :=
  replicate (Z.to_nat capacity) (mkBlock NULL false).

Definition blocks_1024 := zero_blocks BLOCKS_1024_LIST_CAPACITY.
Definition blocks_512 := zero_blocks BLOCKS_512_LIST_CAPACITY.
Definition blocks_256 := zero_blocks BLOCKS_256_LIST_CAPACITY.
Definition blocks_128 := zero_blocks BLOCKS_128_LIST_CAPACITY.
Definition blocks_64 := zero_blocks BLOCKS_64_LIST_CAPACITY.
Definition blocks_32 := zero_blocks BLOCKS_32_LIST_CAPACITY.

(** The initialiser of [ArrayArena] and the zeroed pool: the state the
    program starts in. *)
Definition ArrayArena_static : ArrayArena_S :=
  mkArena
    [ mkList blocks_1024 1024 (to_size_t (BLOCKS_1024_LIST_INIT_LEN - 1));
      mkList blocks_512 512 (to_size_t (BLOCKS_512_LIST_INIT_LEN - 1));
      mkList blocks_256 256 (to_size_t (BLOCKS_256_LIST_INIT_LEN - 1));
      mkList blocks_128 128 (to_size_t (BLOCKS_128_LIST_INIT_LEN - 1));
      mkList blocks_64 64 (to_size_t (BLOCKS_64_LIST_INIT_LEN - 1));
      mkList blocks_32 32 (to_size_t (BLOCKS_32_LIST_INIT_LEN - 1)) ]
    false
    (to_size_t (VEC_ARRAY_ARENA_SIZE - VEC_ARRAY_ARENA_SIZE mod 32)).

Definition state_static : state :=
  mkState ArrayArena_static (replicate (Z.to_nat VEC_ARRAY_ARENA_SIZE) 0).

(** *** StaticArrayPoolInit *)

(** The inner loop [for (j = 0; j < list->len; j++)]; [n] counts the
    iterations that remain. *)
Fixpoint StaticArrayPoolInit_blocks (n : nat) (j : Z) (list : ArrayPoolBlockList_S)
    (accumulating_offset : Z) : result (ArrayPoolBlockList_S * Z) :=
  match n with
  | O => Ret (list, accumulating_offset)
  | S n' =>
      _ ← assert (accumulating_offset <? VEC_ARRAY_ARENA_SIZE);
      list ← write_ptr list j (ArrayArenaPool_addr + accumulating_offset);
      list ← write_is_free list j true;
      let accumulating_offset := to_size_t (accumulating_offset + block_size list) in
      _ ← assert (accumulating_offset <=? VEC_ARRAY_ARENA_SIZE);
      StaticArrayPoolInit_blocks n' (j + 1) list accumulating_offset
  end.

(** The outer loop over [ArrayArena.lists[0 .. NUM_OF_BLOCK_SIZES-1]]. *)
Fixpoint StaticArrayPoolInit_lists (ls : list ArrayPoolBlockList_S)
    (accumulating_offset : Z) : result (list ArrayPoolBlockList_S) :=
  match ls with
  | [] => Ret []
  | list :: rest =>
      '(list', off) ← StaticArrayPoolInit_blocks (Z.to_nat (len list)) 0 list accumulating_offset;
      rest' ← StaticArrayPoolInit_lists rest off;
      Ret (list' :: rest')
  end.

(** [assert( ArrayArena.lists != NULL )] tests the address of an array
    member and cannot fail; it is left out. *)
Definition StaticArrayPoolInit (s : state) : result state :=
  let a := ArrayArena s in
  _ ← assert (negb (arena_initialized a));
  ls ← StaticArrayPoolInit_lists (lists a) 0;
  Ret (set_arena s (mkArena ls true (space_available a))).

Definition StaticArrayPoolIsInitialized (s : state) : bool :=
  arena_initialized (ArrayArena s).

(** *** Helper_FindBlock *)

(** The inner loop over one list.  [found] carries [blk_found] together
    with the two out-parameters.  With NDEBUG the first hit returns; without
    it the scan goes on and asserts that no second hit exists. *)
Fixpoint Helper_FindBlock_list (n : nat) (i : Z) (sz : Z) (list : ArrayPoolBlockList_S)
    (p : Z) (found : option (Z * Z)) : result (ctl (Z * Z) (option (Z * Z))) :=
  match n with
  | O => Ret (Next found)
  | S n' =>
      b ← read_block list i;
      if ptr b =? p then
        if NDEBUG then Ret (Return_ (sz, i))
        else
          _ ← assert (negb (bool_decide (is_Some found)));
          Helper_FindBlock_list n' (i + 1) sz list p (Some (sz, i))
      else Helper_FindBlock_list n' (i + 1) sz list p found
  end.

Fixpoint Helper_FindBlock_lists (ls : list ArrayPoolBlockList_S) (sz : Z) (p : Z)
    (found : option (Z * Z)) : result (option (Z * Z)) :=
  match ls with
  | [] => Ret (if NDEBUG then None else found)
  | list :: rest =>
      r ← Helper_FindBlock_list (Z.to_nat (len list)) 0 sz list p found;
      match r with
      | Return_ hit => Ret (Some hit)
      | Next found' => Helper_FindBlock_lists rest (sz + 1) p found'
      end
  end.

(** Returns [Some (blk_sz, blk_idx)] for [true] and [None] for [false]. *)
Definition Helper_FindBlock (a : ArrayArena_S) (p : Z) : result (option (Z * Z)) :=
  _ ← assert (arena_initialized a);
  if NULL =? p then Ret None
  else Helper_FindBlock_lists (lists a) 0 p None.

(** *** StaticArrayAlloc *)

(** The locals a loop of [StaticArrayAlloc] carries. *)
Record alloc_locals : Type := mkLocals
  { found_block : bool;
    space_allocated : Z;
    block_ptr : Z }.

(** The assertion loop that checks the order of the lists. *)
Fixpoint StaticArrayAlloc_check_order (ls : list ArrayPoolBlockList_S) (prev_sz : Z)
    : result unit :=
  match ls with
  | [] => Ret tt
  | list :: rest =>
      _ ← assert (prev_sz <? block_size list);
      StaticArrayAlloc_check_order rest (block_size list)
  end.

(** [for (i = 0; i < list->len; i++)]: the scan of the selected list. *)
Fixpoint StaticArrayAlloc_scan (n : nat) (i : Z) (list : ArrayPoolBlockList_S)
    (loc : alloc_locals) : result (ArrayPoolBlockList_S * alloc_locals) :=
  match n with
  | O => Ret (list, loc)
  | S n' =>
      b ← read_block list i;
      if is_free b then
        list' ← write_is_free list i false;
        StaticArrayAlloc_scan n' (i + 1) list' (mkLocals true (block_size list) (ptr b))
      else StaticArrayAlloc_scan n' (i + 1) list loc
  end.

(** [for (i = (int)(larger_size_list->len - 1); i >= 0; i--)]: the split
    loop over the list the code calls [larger_size_list]. *)
Fixpoint StaticArrayAlloc_split (n : nat) (i : Z)
    (list larger_size_list : ArrayPoolBlockList_S) (loc : alloc_locals)
    : result (ArrayPoolBlockList_S * ArrayPoolBlockList_S * alloc_locals) :=
  match n with
  | O => Ret (list, larger_size_list, loc)
  | S n' =>
      b ← read_block larger_size_list i;
      if negb (is_free b) then
        StaticArrayAlloc_split n' (i - 1) list larger_size_list loc
      else
        let larger_size_list := set_len larger_size_list (to_size_t (len larger_size_list - 1)) in
        list ← write_ptr list (len list) (ptr b);
        list ← write_ptr list (to_size_t (len list + 1)) (ptr b + block_size larger_size_list);
        list ← write_is_free list (len list) false;
        list ← write_is_free list (to_size_t (len list + 1)) true;
        let list := set_len list (to_size_t (len list + 2)) in
        b' ← read_block list (to_size_t (len list - 2));
        StaticArrayAlloc_split n' (i - 1) list larger_size_list
          (mkLocals true (block_size list) (ptr b'))
  end.

(** The body run for the class the size loop stops at, up to its [break]. *)
Definition StaticArrayAlloc_class (a : ArrayArena_S) (sz : Z) (loc : alloc_locals)
    : result (ArrayArena_S * alloc_locals) :=
  list ← read_list a sz;
  '(list, loc) ← StaticArrayAlloc_scan (Z.to_nat (len list)) 0 list
                   (mkLocals false (space_allocated loc) (block_ptr loc));
  if negb (found_block loc) && negb (sz =? BLKS_LARGEST_SIZE) then
    larger_size_list ← read_list a (sz + 1);
    let i := to_int (to_size_t (len larger_size_list - 1)) in
    '(list, larger_size_list, loc) ←
       StaticArrayAlloc_split (Z.to_nat (i + 1)) i list larger_size_list loc;
    Ret (write_list (write_list a (sz + 1) larger_size_list) sz list, loc)
  else Ret (write_list a sz list, loc).

(** [for (sz = 0; sz < NUM_OF_BLOCK_SIZES; sz++)] with its [continue] and
    its [break]. *)
Fixpoint StaticArrayAlloc_sizes (n : nat) (sz : Z) (a : ArrayArena_S) (req_bytes : Z)
    (loc : alloc_locals) : result (ArrayArena_S * alloc_locals) :=
  match n with
  | O => Ret (a, loc)
  | S n' =>
      list ← read_list a sz;
      if req_bytes <? block_size list / 2 then
        StaticArrayAlloc_sizes n' (sz + 1) a req_bytes loc
      else StaticArrayAlloc_class a sz loc
  end.

(** Returns the new state and the pointer ([NULL] on failure). *)
Definition StaticArrayAlloc (s : state) (req_bytes : Z) : result (state * Z) :=
  let a := ArrayArena s in
  _ ← assert (arena_initialized a);
  if space_available a <? req_bytes then Ret (s, NULL)
  else
    _ ← (if NDEBUG then Ret tt else
           match lists a with
           | [] => UB
           | l0 :: rest => StaticArrayAlloc_check_order rest (block_size l0)
           end);
    _ ← assert (req_bytes <=? 1024);
    '(a, loc) ← StaticArrayAlloc_sizes NUM_OF_BLOCK_SIZES 0 a req_bytes
                  (mkLocals false 0 NULL);
    let a := set_space_available a (to_size_t (space_available a - space_allocated loc)) in
    Ret (set_arena s a, block_ptr loc).

(** *** StaticArrayFree *)

Definition StaticArrayFree_arena (a : ArrayArena_S) (p : Z) : result ArrayArena_S :=
  r ← Helper_FindBlock a p;
  match r with
  | None => Ret a
  | Some (blk_sz, blk_idx) =>
      list ← read_list a blk_sz;
      list ← write_is_free list blk_idx true;
      let a := write_list a blk_sz list in
      match BlockSize_E_to_Int !! Z.to_nat blk_sz with
      | Some n => Ret (set_space_available a (to_size_t (space_available a + n)))
      | None => UB
      end
  end.

Definition StaticArrayFree (s : state) (p : Z) : result state :=
  a ← StaticArrayFree_arena (ArrayArena s) p; Ret (set_arena s a).

(** *** StaticArrayIsAlloc *)

Definition StaticArrayIsAlloc (s : state) (p : Z) : result bool :=
  r ← Helper_FindBlock (ArrayArena s) p;
  match r with
  | None => Ret false
  | Some (blk_sz, blk_idx) =>
      list ← read_list (ArrayArena s) blk_sz;
      b ← read_block list blk_idx;
      Ret (negb (is_free b))
  end.

(** *** StaticArrayRealloc *)

(** [memcpy(dst, src, n)] on the pool: both ranges must lie inside the
    array and must not overlap. *)
Definition memcpy (pool : list Z) (dst src n : Z) : result (list Z) :=
  let d := dst - ArrayArenaPool_addr in
  let s := src - ArrayArenaPool_addr in
  if (0 <=? d) && (0 <=? s) && (0 <=? n)
     && (d + n <=? Z.of_nat (length pool)) && (s + n <=? Z.of_nat (length pool))
     && ((d + n <=? s) || (s + n <=? d))
  then Ret (take (Z.to_nat d) pool
            ++ take (Z.to_nat n) (drop (Z.to_nat s) pool)
            ++ drop (Z.to_nat (d + n)) pool)
  else UB.

Definition StaticArrayRealloc (s : state) (p : Z) (req_bytes : Z) : result (state * Z) :=
  r ← Helper_FindBlock (ArrayArena s) p;
  match r with
  | None => Ret (s, NULL)
  | Some (old_blk_sz, old_blk_idx) =>
      list ← read_list (ArrayArena s) old_blk_sz;
      b ← read_block list old_blk_idx;
      if is_free b then Ret (s, NULL)
      else if (block_size list / 2 <? req_bytes) && (req_bytes <=? block_size list)
      then Ret (s, p)
      else if 0 =? req_bytes then
        s' ← StaticArrayFree s p; Ret (s', NULL)
      else
        '(s1, tmp) ← StaticArrayAlloc s req_bytes;
        if negb (tmp =? NULL) then
          match BlockSize_E_to_Int !! Z.to_nat old_blk_sz with
          | None => UB
          | Some old_blk_size =>
              let num_of_bytes :=
                if old_blk_size <? req_bytes then old_blk_size else req_bytes in
              pool ← memcpy (ArrayArenaPool s1) tmp p num_of_bytes;
              s2 ← StaticArrayFree (mkState (ArrayArena s1) pool) p;
              Ret (s2, tmp)
          end
        else Ret (s1, p)
  end.

(** ** Runs of the public operations *)

Inductive op : Type :=
| Init
| Alloc (req_bytes : Z)
| Realloc (p req_bytes : Z)
| Free (p : Z)
| IsAllocated (p : Z)
| Store (p v : Z).   (* the caller writes byte [v] through pointer [p] *)

Definition store (s : state) (p v : Z) : result state :=
  let o := p - ArrayArenaPool_addr in
  if (0 <=? o) && (o <? Z.of_nat (length (ArrayArenaPool s)))
  then Ret (mkState (ArrayArena s) (<[Z.to_nat o := v]> (ArrayArenaPool s)))
  else UB.

Definition step (s : state) (o : op) : result state :=
  match o with
  | Init => StaticArrayPoolInit s
  | Alloc n => r ← StaticArrayAlloc s n; Ret r.1
  | Realloc p n => r ← StaticArrayRealloc s p n; Ret r.1
  | Free p => StaticArrayFree s p
  | IsAllocated p => _ ← StaticArrayIsAlloc s p; Ret s
  | Store p v => store s p v
  end.

Fixpoint run (s : state) (ops : list op) : result state :=
  match ops with
  | [] => Ret s
  | o :: rest => s' ← step s o; run s' rest
  end.

(** The states the program can be in: those a run from the static
    initialiser ends in. *)
Definition reachable (s : state) : Prop :=
  exists ops, run state_static ops = Ret s.

(** ** Vocabulary of the specification *)

(** The descriptors in use: the first [len] entries of the array. *)
Definition live_blocks (l : ArrayPoolBlockList_S) : list ArrayPoolBlock_S :=
  take (Z.to_nat (len l)) (blocks l).

Definition count_allocated (l : ArrayPoolBlockList_S) : Z :=
  Z.of_nat (length (List.filter (fun b => negb (is_free b)) (live_blocks l))).

(** Sum over the classes of class size times number of allocated blocks. *)
Definition allocated_bytes (a : ArrayArena_S) : Z :=
  fold_right Z.add 0 (map (fun l => block_size l * count_allocated l) (lists a)).

Definition usable_bytes : Z := VEC_ARRAY_ARENA_SIZE - VEC_ARRAY_ARENA_SIZE mod 32.

Definition space_accounting (a : ArrayArena_S) : Prop :=
  space_available a + allocated_bytes a = usable_bytes.

(** The address range [(start, size)] of every live descriptor, class by
    class. *)
Definition live_ranges (a : ArrayArena_S) : list (Z * Z) :=
  flat_map (fun l => map (fun b => (ptr b, block_size l)) (live_blocks l)) (lists a).

Definition overlap (r1 r2 : Z * Z) : bool :=
  (r1.1 <? r2.1 + r2.2) && (r2.1 <? r1.1 + r1.2).

Definition no_overlap (rs : list (Z * Z)) : Prop :=
  forall (i j : nat) r1 r2,
    i <> j -> rs !! i = Some r1 -> rs !! j = Some r2 -> overlap r1 r2 = false.


(** The class the size loop of [StaticArrayAlloc] stops at: every list
    before [sz] is skipped, list [sz] is not. *)
Definition class_selected (a : ArrayArena_S) (req_bytes : Z) (sz : nat) : Prop :=
  (sz < NUM_OF_BLOCK_SIZES)%nat /\
  (forall k l, (k < sz)%nat -> lists a !! k = Some l -> req_bytes < block_size l / 2) /\
  (exists l, lists a !! sz = Some l /\ block_size l / 2 <= req_bytes).

(** ** Invariants of the bookkeeping *)

(** A descriptor never holds a negative address, and a free one never the
    null pointer. *)
Definition block_ok (b : ArrayPoolBlock_S) : Prop :=
  0 <= ptr b /\ (is_free b = true -> 0 < ptr b).

Definition list_ok (l : ArrayPoolBlockList_S) : Prop :=
  0 <= len l <= Z.of_nat (length (blocks l)) /\ 0 <= block_size l /\
  Z.of_nat (length (blocks l)) < 2 ^ 63 /\
  Forall block_ok (blocks l).

Definition arena_ok (a : ArrayArena_S) : Prop :=
  Forall list_ok (lists a) /\
  block_size <$> lists a = BlockSize_E_to_Int /\
  0 <= space_available a < SIZE_T_MODULUS.

(** [(sz, idx)] names entry [idx] of [list], in use and holding address [p]. *)
Definition hit_in (list : ArrayPoolBlockList_S) (sz p : Z) (h : Z * Z) : Prop :=
  h.1 = sz /\ 0 <= h.2 < len list /\
  exists b, blocks list !! Z.to_nat h.2 = Some b /\ ptr b = p.

(** Descriptor [idx] of list [sz] is in use and holds address [p], and no
    descriptor in use before it, in the order of the lookup (list by list,
    index by index), holds [p]. *)
Definition first_at (a : ArrayArena_S) (p : Z) (sz : nat) (idx : Z) : Prop :=
  (exists l b, lists a !! sz = Some l /\ 0 <= idx < len l /\
     blocks l !! Z.to_nat idx = Some b /\ ptr b = p) /\
  (forall k l j b, lists a !! k = Some l -> 0 <= j < len l ->
     blocks l !! Z.to_nat j = Some b -> ptr b = p ->
     (sz < k)%nat \/ (k = sz /\ idx <= j)).

End Sara.

(** ** Concrete builds used in the examples *)

(** A build with a pool of [size] bytes placed at address 4096. *)
Definition build (size : Z) (ndebug : bool) : Build := mkBuild size ndebug 4096.

(** What an example shows of a state: the live descriptors of the six
    lists, largest class first, and [space_available]. *)
Definition view (s : state) : list (list ArrayPoolBlock_S) * Z :=
  (live_blocks <$> lists (ArrayArena s), space_available (ArrayArena s)).

Definition FREE (p : Z) : ArrayPoolBlock_S := mkBlock p true.
Definition USED (p : Z) : ArrayPoolBlock_S := mkBlock p false.

(** A run of [ops] from the static initialiser of build [cfg], and the
    state it ends in when it returns. *)
Definition boot (cfg : Build) (ops : list op) : result state :=
  @run cfg (@state_static cfg) ops.

Definition state_after (cfg : Build) (ops : list op) : state :=
  match boot cfg ops with
  | Ret s => s
  | _ => @state_static cfg
  end.

(** Follows the specification's words, not the code: the descriptor a
    direct hit is to return, the first free one from index 0 upward. *)
Definition spec_first_free (bs : list ArrayPoolBlock_S) : option ArrayPoolBlock_S :=
  List.find is_free bs.

(** Follows the specification's words, not the code: the smallest class
    whose size is at least [req_bytes], among the classes in descending
    order. *)
Definition spec_best_class (req_bytes : Z) : option Z :=
  last (List.filter (fun c => req_bytes <=? c) BlockSize_E_to_Int).

(** The ranges follow one another without a gap, each of positive size,
    from address [a] up to address [b]. *)
Fixpoint tiles (rs : list (Z * Z)) (a b : Z) : Prop :=
  match rs with
  | [] => a = b
  | r :: rest => r.1 = a /\ 0 < r.2 /\ tiles rest (a + r.2) b
  end.

(** The bytes the live descriptors of the lists stand for: [len] times
    [block_size], summed over the lists. *)
Definition described_bytes (ls : list ArrayPoolBlockList_S) : Z :=
  fold_right Z.add 0 (map (fun l => len l * block_size l) ls).

(** The address ranges of the live descriptors of one list. *)
Definition list_ranges (l : ArrayPoolBlockList_S) : list (Z * Z) :=
  map (fun b => (ptr b, block_size l)) (live_blocks l).

(** Every live descriptor of every list is free. *)
Definition all_free (a : ArrayArena_S) : Prop :=
  Forall (fun l => Forall (fun b => is_free b = true) (live_blocks l)) (lists a).

(** * Facts *)

Section Facts.

Context {cfg : Build}.

(** ** The outcome monad *)

Lemma bind_Ret {A B : Type} (m : result A) (f : A -> result B) (r : B) :
  m ≫= f = Ret r -> exists a, m = Ret a /\ f a = Ret r.
Proof. destruct m as [a| |]; simpl; intros H; try discriminate. by exists a. Qed.

Ltac inv_bind H :=
  let a := fresh "v" in
  let E := fresh "E" in
  apply bind_Ret in H; destruct H as (a & E & H).

Ltac inv_ret H := simplify_eq H; intros; subst.

(** ** Reading and writing descriptors *)

Lemma read_block_Ret l i b :
  read_block l i = Ret b -> 0 <= i /\ blocks l !! Z.to_nat i = Some b.
Proof.
  unfold read_block. destruct (Z.ltb_spec i 0); [discriminate|].
  destruct (blocks l !! Z.to_nat i) eqn:E; [|discriminate].
  intros H'; by inv_ret H'.
Qed.

Lemma write_block_Ret l i b l' :
  write_block l i b = Ret l' ->
  0 <= i /\ (Z.to_nat i < length (blocks l))%nat /\
  l' = set_blocks l (<[Z.to_nat i := b]> (blocks l)).
Proof.
  unfold write_block. destruct (Z.ltb_spec i 0); [discriminate|].
  destruct (Nat.ltb_spec (Z.to_nat i) (length (blocks l))); [|discriminate].
  intros H'; by inv_ret H'.
Qed.

Lemma write_ptr_Ret l i p l' :
  write_ptr l i p = Ret l' ->
  exists b, 0 <= i /\ blocks l !! Z.to_nat i = Some b /\
    l' = set_blocks l (<[Z.to_nat i := mkBlock p (is_free b)]> (blocks l)).
Proof.
  unfold write_ptr. intros H. inv_bind H.
  apply read_block_Ret in E as [? ?]. apply write_block_Ret in H as (_ & _ & ->).
  eauto.
Qed.

Lemma write_is_free_Ret l i f l' :
  write_is_free l i f = Ret l' ->
  exists b, 0 <= i /\ blocks l !! Z.to_nat i = Some b /\
    l' = set_blocks l (<[Z.to_nat i := mkBlock (ptr b) f]> (blocks l)).
Proof.
  unfold write_is_free. intros H. inv_bind H.
  apply read_block_Ret in E as [? ?]. apply write_block_Ret in H as (_ & _ & ->).
  eauto.
Qed.

Lemma list_ok_set_blocks l i b :
  list_ok l -> block_ok b -> list_ok (set_blocks l (<[i := b]> (blocks l))).
Proof.
  intros (? & ? & ? & ?) ?. unfold list_ok; simpl.
  rewrite length_insert. split; [done|]. split; [done|]. split; [done|].
  by apply Forall_insert.
Qed.

Lemma list_ok_set_len l n :
  list_ok l -> 0 <= n <= Z.of_nat (length (blocks l)) -> list_ok (set_len l n).
Proof. intros (? & ? & ? & ?) ?. by unfold list_ok. Qed.


Lemma to_size_t_range x : 0 <= to_size_t x < SIZE_T_MODULUS.
Proof. unfold to_size_t, SIZE_T_MODULUS. apply Z.mod_pos_bound. lia. Qed.

Lemma to_size_t_small x : 0 <= x < SIZE_T_MODULUS -> to_size_t x = x.
Proof. unfold to_size_t. intros. by apply Z.mod_small. Qed.

Lemma to_int_len_pred (L : Z) :
  0 <= L < SIZE_T_MODULUS -> to_int (to_size_t (L - 1)) < L.
Proof.
  intros HL. destruct (Z.eq_dec L 0) as [->|Hne]; [by vm_compute|].
  rewrite to_size_t_small by lia. unfold to_int.
  pose proof (Z.mod_pos_bound (L - 1) (2 ^ 32) ltac:(lia)).
  pose proof (Z.mod_le (L - 1) (2 ^ 32) ltac:(lia) ltac:(lia)).
  destruct (_ <? _); lia.
Qed.

Lemma list_ok_lookup l i b :
  list_ok l -> blocks l !! i = Some b -> block_ok b.
Proof. intros (_ & _ & _ & H) Hb. eapply Forall_lookup_1; eauto. Qed.

(** ** The scan of the selected list *)

(** The scan either finds nothing and changes nothing, or leaves in
    [block_ptr] the address of a free descriptor, which is not null. *)
Lemma StaticArrayAlloc_scan_spec n : forall i list loc list' loc',
  list_ok list ->
  StaticArrayAlloc_scan n i list loc = Ret (list', loc') ->
  list_ok list' /\ len list' = len list /\ block_size list' = block_size list /\
  ((list' = list /\ loc' = loc) \/ (found_block loc' = true /\ 0 < block_ptr loc')).
Proof.
  induction n as [|n IH]; intros i list loc list' loc' Hok H; simpl in H.
  - inv_ret H. split_and!; auto.
  - inv_bind H. apply read_block_Ret in E as [Hi Hb].
    destruct (is_free v) eqn:Hfree.
    + inv_bind H. apply write_is_free_Ret in E as (b & _ & Hb' & ->).
      assert (b = v) by congruence. subst b.
      pose proof (list_ok_lookup _ _ _ Hok Hb) as [Hge Hpos].
      apply IH in H as (Hok' & Hlen & Hbs & Hcase).
      * simpl in *. split_and!; try done. right.
        destruct Hcase as [[_ ->]|?]; simpl; auto.
      * apply list_ok_set_blocks; [done|]. split; simpl; [done|discriminate].
    + by apply IH in H.
Qed.

(** ** The split loop *)

Lemma index_after_len (L : Z) (n : nat) :
  0 <= L -> (Z.to_nat L < n)%nat -> Z.of_nat n < 2 ^ 63 ->
  Z.to_nat (to_size_t (L + 1)) = S (Z.to_nat L) /\
  to_size_t (to_size_t (L + 2) - 2) = L.
Proof.
  intros HL Hn Hcap. assert (L < 2 ^ 63) by lia.
  assert (Hm : 2 ^ 63 < SIZE_T_MODULUS) by (unfold SIZE_T_MODULUS; lia).
  rewrite !to_size_t_small; unfold SIZE_T_MODULUS in *; try lia.
  rewrite (to_size_t_small (L + 2)); unfold SIZE_T_MODULUS; lia.
Qed.

(** One pass of the split loop body over a free descriptor [b]: the four
    field writes and the read back of [list->blocks[list->len - 2].ptr]. *)
Lemma split_body_spec list pb bs l1 l2 l3 l4 b' :
  list_ok list -> 0 < pb -> 0 <= bs ->
  write_ptr list (len list) pb = Ret l1 ->
  write_ptr l1 (to_size_t (len l1 + 1)) (pb + bs) = Ret l2 ->
  write_is_free l2 (len l2) false = Ret l3 ->
  write_is_free l3 (to_size_t (len l3 + 1)) true = Ret l4 ->
  read_block (set_len l4 (to_size_t (len l4 + 2)))
    (to_size_t (len (set_len l4 (to_size_t (len l4 + 2))) - 2)) = Ret b' ->
  list_ok (set_len l4 (to_size_t (len l4 + 2))) /\
  block_size l4 = block_size list /\ ptr b' = pb.
Proof.
  intros Hok Hpb Hbs H1 H2 H3 H4 H5.
  apply write_ptr_Ret in H1 as (b0 & HL & Hb0 & ->). simpl in H2.
  destruct Hok as (Hlen & Hbsl & Hcap & Hall).
  pose proof (lookup_lt_Some _ _ _ Hb0) as Hlt.
  destruct (index_after_len (len list) _ HL Hlt Hcap) as [Hi1 Hi2].
  apply write_ptr_Ret in H2 as (b1 & _ & Hb1 & ->). simpl in *.
  rewrite Hi1 in *.
  pose proof (lookup_lt_Some _ _ _ Hb1) as Hlt1. rewrite length_insert in Hlt1.
  apply write_is_free_Ret in H3 as (b2 & _ & Hb2 & ->). simpl in *.
  rewrite list_lookup_insert_ne in Hb2 by lia.
  rewrite list_lookup_insert_eq in Hb2 by lia. inv_ret Hb2. simpl in *.
  apply write_is_free_Ret in H4 as (b3 & _ & Hb3 & ->). simpl in *.
  rewrite Hi1 in *.
  rewrite list_lookup_insert_ne in Hb3 by lia.
  rewrite list_lookup_insert_eq in Hb3 by (rewrite ?length_insert; lia).
  inv_ret Hb3. simpl in *.
  rewrite Hi2 in H5. apply read_block_Ret in H5 as [_ H5]. simpl in H5.
  rewrite list_lookup_insert_ne in H5 by lia.
  rewrite list_lookup_insert_eq in H5 by (rewrite ?length_insert; lia).
  inv_ret H5. simpl. split_and!; try done.
  unfold list_ok; simpl. rewrite !length_insert.
  split; [|split; [done|split; [done|]]].
  - rewrite to_size_t_small; unfold SIZE_T_MODULUS; lia.
  - repeat apply Forall_insert; try done; split; simpl; intros; lia.
Qed.

(** The split loop either finds nothing and changes nothing, or leaves in
    [block_ptr] the address of the free descriptor it moved, which is not
    null. *)
Lemma StaticArrayAlloc_split_spec n : forall i list larger loc list' larger' loc',
  list_ok list -> list_ok larger -> i < len larger ->
  StaticArrayAlloc_split n i list larger loc = Ret (list', larger', loc') ->
  list_ok list' /\ list_ok larger' /\
  block_size list' = block_size list /\ block_size larger' = block_size larger /\
  ((list' = list /\ larger' = larger /\ loc' = loc)
   \/ (found_block loc' = true /\ 0 < block_ptr loc')).
Proof.
  induction n as [|n IH]; intros i list larger loc list' larger' loc' Hok Hok2 Hil H;
    simpl in H.
  - inv_ret H. split_and!; auto.
  - inv_bind H. apply read_block_Ret in E as [Hi Hb].
    destruct (is_free v) eqn:Hfree; simpl in H.
    + pose proof (list_ok_lookup _ _ _ Hok2 Hb) as [_ Hpos].
      specialize (Hpos Hfree).
      inv_bind H. rename E into H1. inv_bind H. rename E into H2.
      inv_bind H. rename E into H3. inv_bind H. rename E into H4.
      inv_bind H. rename E into H5.
      destruct (split_body_spec _ _ _ _ _ _ _ _ Hok Hpos (proj1 (proj2 Hok2))
                  H1 H2 H3 H4 H5) as (Hok' & Hbs' & Hptr).
      assert (Hl1 : to_size_t (len larger - 1) = len larger - 1).
      { destruct Hok2 as (? & _ & ? & _).
        apply to_size_t_small; unfold SIZE_T_MODULUS; lia. }
      rewrite Hl1 in *.
      apply IH in H as (? & ? & Hbs1 & Hbs2 & Hcase); [| done | |simpl; lia].
      * simpl in *. split; [done|]. split; [done|]. split; [congruence|].
        split; [done|].
        right. destruct Hcase as [(_ & _ & ->)|?]; simpl; [|done].
        split; [done|lia].
      * apply list_ok_set_len; [done|]. destruct Hok2 as (? & _). lia.
    + apply IH in H; [done..|lia].
Qed.

(** ** StaticArrayAlloc keeps the invariant, and fails without a trace *)

Lemma read_list_Ret a sz l :
  read_list a sz = Ret l -> 0 <= sz /\ lists a !! Z.to_nat sz = Some l.
Proof.
  unfold read_list. destruct (Z.ltb_spec sz 0); [discriminate|].
  destruct (lists a !! Z.to_nat sz) eqn:E; [|discriminate].
  intros H'; by inv_ret H'.
Qed.

Lemma write_list_same a sz l :
  lists a !! Z.to_nat sz = Some l -> write_list a sz l = a.
Proof.
  intros H. unfold write_list, set_lists. rewrite list_insert_id by done.
  by destruct a.
Qed.

Lemma arena_ok_write_list a sz l l0 :
  arena_ok a -> lists a !! Z.to_nat sz = Some l0 ->
  list_ok l -> block_size l = block_size l0 ->
  arena_ok (write_list a sz l).
Proof.
  intros (Hall & Hbs & Hsp) Hl0 Hok Heq. unfold arena_ok; simpl.
  split; [by apply Forall_insert|]. split; [|done].
  rewrite list_fmap_insert, Heq. rewrite list_insert_id; [done|].
  by rewrite list_lookup_fmap, Hl0.
Qed.

Lemma arena_ok_lookup a i l : arena_ok a -> lists a !! i = Some l -> list_ok l.
Proof. intros (Hall & _) H. eapply Forall_lookup_1; eauto. Qed.

Lemma StaticArrayAlloc_class_spec a sz loc a' loc' :
  arena_ok a ->
  StaticArrayAlloc_class a sz loc = Ret (a', loc') ->
  arena_ok a' /\ space_available a' = space_available a /\
  ((a' = a /\ loc' = mkLocals false (space_allocated loc) (block_ptr loc))
   \/ 0 < block_ptr loc').
Proof.
  intros Hok H. unfold StaticArrayAlloc_class in H.
  inv_bind H. apply read_list_Ret in E as [Hsz Hl].
  pose proof (arena_ok_lookup _ _ _ Hok Hl) as Hlok.
  inv_bind H. destruct v0 as [list1 loc1].
  apply StaticArrayAlloc_scan_spec in E as (Hok1 & Hlen1 & Hbs1 & Hcase1); [|done].
  destruct (negb (found_block loc1) && negb (sz =? BLKS_LARGEST_SIZE)) eqn:Hc.
  - inv_bind H. apply read_list_Ret in E as [_ Hl2].
    pose proof (arena_ok_lookup _ _ _ Hok Hl2) as Hlok2.
    inv_bind H. destruct v1 as [[list2 larger2] loc2]. inv_ret H.
    apply StaticArrayAlloc_split_spec in E as (Hok2 & Hok3 & Hbs2 & Hbs3 & Hcase2);
      [|done|done|].
    2:{ apply to_int_len_pred. destruct Hlok2 as (? & _ & ? & _).
        unfold SIZE_T_MODULUS; lia. }
    assert (Hne : Z.to_nat (sz + 1) <> Z.to_nat sz) by lia.
    split_and!.
    + apply (arena_ok_write_list _ sz list2 v);
        [by apply (arena_ok_write_list _ (sz + 1) larger2 v0)| |done|congruence].
      simpl. by rewrite list_lookup_insert_ne.
    + done.
    + destruct Hcase2 as [(-> & -> & ->)|[_ ?]]; [|by right].
      destruct Hcase1 as [[-> ->]|[Hf _]].
      * left. split; [|done]. rewrite (write_list_same a (sz + 1)) by done.
        by apply write_list_same.
      * apply andb_prop in Hc as [Hc _]. rewrite Hf in Hc. discriminate.
  - inv_ret H. split_and!.
    + by apply (arena_ok_write_list _ sz list1 v).
    + done.
    + destruct Hcase1 as [[-> ->]|[_ ?]]; [left|by right].
      split; [by apply write_list_same|done].
Qed.

Lemma StaticArrayAlloc_sizes_spec n : forall sz a req loc a' loc',
  arena_ok a -> found_block loc = false ->
  StaticArrayAlloc_sizes n sz a req loc = Ret (a', loc') ->
  arena_ok a' /\ space_available a' = space_available a /\
  ((a' = a /\ loc' = loc) \/ 0 < block_ptr loc').
Proof.
  induction n as [|n IH]; intros sz a req loc a' loc' Hok Hf H; simpl in H.
  - inv_ret H. auto.
  - inv_bind H. destruct (req <? block_size v / 2).
    + by apply IH in H.
    + apply StaticArrayAlloc_class_spec in H as (? & ? & Hcase); [|done].
      split_and!; try done. destruct Hcase as [[-> ->]|?]; [left|by right].
      split; [done|]. destruct loc; simpl in *; by subst.
Qed.

Lemma arena_ok_set_space_available a n :
  arena_ok a -> arena_ok (set_space_available a (to_size_t n)).
Proof.
  intros (? & ? & ?). unfold arena_ok; simpl.
  split; [done|]. split; [done|]. apply to_size_t_range.
Qed.

(** The shared core of the failure-atomicity results: on a state that
    satisfies the invariant, [StaticArrayAlloc] keeps the invariant, never
    touches the pool, and when it returns the null pointer it returns the
    state it was given. *)
Lemma StaticArrayAlloc_spec s req s' p :
  arena_ok (ArrayArena s) ->
  StaticArrayAlloc s req = Ret (s', p) ->
  arena_ok (ArrayArena s') /\ ArrayArenaPool s' = ArrayArenaPool s /\
  (p = NULL -> s' = s).
Proof.
  intros Hok H. unfold StaticArrayAlloc in H. inv_bind H.
  destruct (space_available (ArrayArena s) <? req); [by inv_ret H|].
  inv_bind H. inv_bind H. inv_bind H. destruct v2 as [a1 loc1]. inv_ret H.
  apply StaticArrayAlloc_sizes_spec in E2 as (Hok1 & Hsp & Hcase); [|done|done].
  split_and!; simpl.
  - by apply arena_ok_set_space_available.
  - done.
  - intros Hp. destruct Hcase as [[-> ->]|Hpos]; [|unfold NULL in Hp; lia].
    simpl. rewrite Z.sub_0_r, to_size_t_small by apply Hok.
    destruct s as [[? ? ?] ?]; done.
Qed.

(** ** Helper_FindBlock returns a live descriptor with the address asked for *)

Lemma Helper_FindBlock_list_spec n : forall i sz list p found r,
  0 <= i -> i + Z.of_nat n <= Z.max 0 (len list) ->
  Helper_FindBlock_list n i sz list p found = Ret r ->
  match r with
  | Return_ h => hit_in list sz p h
  | Next (Some h) => found = Some h \/ hit_in list sz p h
  | Next None => found = None
  end.
Proof.
  induction n as [|n IH]; intros i sz list p found r Hi Hn H; simpl in H.
  - inv_ret H. destruct found; auto.
  - inv_bind H. apply read_block_Ret in E as [_ Hb].
    destruct (Z.eqb_spec (ptr v) p) as [Heq|Hne].
    + assert (Hhit : hit_in list sz p (sz, i)).
      { split; [done|]. split; [simpl; lia|]. by exists v. }
      destruct NDEBUG; [by inv_ret H|].
      inv_bind H. apply IH in H; [|lia|lia].
      destruct r as [h|[h|]]; try done.
      destruct H as [H|H]; [inv_ret H|]; by right.
    + apply IH in H; [done|lia|lia].
Qed.

Lemma Helper_FindBlock_lists_spec ls : forall sz p found h,
  0 <= sz ->
  Helper_FindBlock_lists ls sz p found = Ret (Some h) ->
  found = Some h \/
  exists list, sz <= h.1 /\ ls !! Z.to_nat (h.1 - sz) = Some list /\ hit_in list h.1 p h.
Proof.
  induction ls as [|list rest IH]; intros sz p found h Hsz H; simpl in H.
  - destruct NDEBUG; inv_ret H. by left.
  - inv_bind H.
    apply Helper_FindBlock_list_spec in E; [|lia|lia].
    destruct v as [h'|found'].
    + inv_ret H. right. exists list. destruct E as (Hsz' & HE). subst sz.
      rewrite Z.sub_diag. split; [lia|]. split; [done|]. by split.
    + apply IH in H as [->|(l & Hle & Hl & Hhit)]; [| |lia].
      * destruct E as [?|(Hsz' & HE)]; [by left|right]. exists list. subst sz.
        rewrite Z.sub_diag. split; [lia|]. split; [done|]. by split.
      * right. exists l. split; [lia|]. split; [|done].
        replace (Z.to_nat (h.1 - sz)) with (S (Z.to_nat (h.1 - (sz + 1)))) by lia.
        done.
Qed.

Lemma Helper_FindBlock_Some a p sz idx :
  Helper_FindBlock a p = Ret (Some (sz, idx)) ->
  p <> NULL /\
  exists list b, read_list a sz = Ret list /\ read_block list idx = Ret b /\
    ptr b = p /\ 0 <= idx < len list.
Proof.
  unfold Helper_FindBlock. intros H. inv_bind H.
  destruct (Z.eqb_spec NULL p) as [|Hne]; [discriminate|]. split; [done|].
  apply Helper_FindBlock_lists_spec in H as [?|(l & Hle & Hl & Hhit)];
    [done| |lia].
  simpl in *. rewrite Z.sub_0_r in Hl.
  destruct Hhit as (_ & Hidx & b & Hb & Hp). simpl in *.
  exists l, b. unfold read_list, read_block.
  destruct (Z.ltb_spec sz 0); [lia|]. destruct (Z.ltb_spec idx 0); [lia|].
  by rewrite Hl, Hb.
Qed.

(** With NDEBUG the lookup returns the first live descriptor that holds
    the address. *)
Lemma Helper_FindBlock_list_miss n : forall i sz list p found,
  0 <= i -> i + Z.of_nat n <= Z.of_nat (length (blocks list)) ->
  (forall j b, i <= j < i + Z.of_nat n ->
     blocks list !! Z.to_nat j = Some b -> ptr b <> p) ->
  Helper_FindBlock_list n i sz list p found = Ret (Next found).
Proof.
  induction n as [|n IH]; intros i sz list p found Hi Hn Hmiss; simpl; [done|].
  destruct (lookup_lt_is_Some_2 (blocks list) (Z.to_nat i)) as [b Hb]; [lia|].
  unfold read_block. destruct (Z.ltb_spec i 0); [lia|]. rewrite Hb. simpl.
  destruct (Z.eqb_spec (ptr b) p) as [Heq|_].
  - by destruct (Hmiss i b ltac:(lia) Hb).
  - apply IH; [lia|lia|]. intros j b' Hj. apply Hmiss. lia.
Qed.

Lemma Helper_FindBlock_list_first n : forall i sz list p found idx b,
  NDEBUG = true ->
  0 <= i -> i + Z.of_nat n <= Z.of_nat (length (blocks list)) ->
  i <= idx < i + Z.of_nat n ->
  blocks list !! Z.to_nat idx = Some b -> ptr b = p ->
  (forall j b', i <= j < idx ->
     blocks list !! Z.to_nat j = Some b' -> ptr b' <> p) ->
  Helper_FindBlock_list n i sz list p found = Ret (Return_ (sz, idx)).
Proof.
  induction n as [|n IH]; intros i sz list p found idx b HN Hi Hn Hidx Hb Hp Hfirst;
    simpl; [lia|].
  destruct (lookup_lt_is_Some_2 (blocks list) (Z.to_nat i)) as [bi Hbi]; [lia|].
  unfold read_block. destruct (Z.ltb_spec i 0); [lia|]. rewrite Hbi. simpl.
  destruct (Z.eqb_spec (ptr bi) p) as [Heq|Hne].
  - rewrite HN. destruct (Z.eq_dec i idx) as [->|]; [done|].
    by destruct (Hfirst i bi ltac:(lia) Hbi).
  - destruct (Z.eq_dec i idx) as [->|]; [congruence|].
    apply (IH _ _ _ _ _ _ b); try done; try lia.
    intros j b' Hj. apply Hfirst. lia.
Qed.

Lemma Helper_FindBlock_lists_first ls : forall sz0 p k idx,
  NDEBUG = true -> Forall list_ok ls ->
  (exists l b, ls !! k = Some l /\ 0 <= idx < len l /\
     blocks l !! Z.to_nat idx = Some b /\ ptr b = p) ->
  (forall k' l j b, ls !! k' = Some l -> 0 <= j < len l ->
     blocks l !! Z.to_nat j = Some b -> ptr b = p ->
     (k < k')%nat \/ (k' = k /\ idx <= j)) ->
  Helper_FindBlock_lists ls sz0 p None = Ret (Some (sz0 + Z.of_nat k, idx)).
Proof.
  induction ls as [|l0 rest IH]; intros sz0 p k idx HN Hall (l & b & Hl & Hidx & Hb & Hp) Hfirst.
  - done.
  - apply Forall_cons in Hall as [(Hlen & _) Hrest]. simpl.
    destruct k as [|k]; simpl in Hl.
    + inv_ret Hl.
      rewrite (Helper_FindBlock_list_first _ _ _ _ _ _ idx b); try done; try lia.
      * simpl. by rewrite Z.add_0_r.
      * intros j b' Hj Hb' Hp'.
        destruct (Hfirst 0%nat l j b' eq_refl ltac:(lia) Hb' Hp') as [?|[_ ?]]; lia.
    + rewrite Helper_FindBlock_list_miss; [|lia|lia|].
      * simpl. rewrite (IH (sz0 + 1) p k idx); try done.
        -- do 3 f_equal. lia.
        -- by exists l, b.
        -- intros k' l' j b' Hl' Hj Hb' Hp'.
           destruct (Hfirst (S k') l' j b' Hl' Hj Hb' Hp') as [?|[? ?]];
             [left; lia|right; split; [lia|done]].
      * intros j b' Hj Hb' Hp'.
        destruct (Hfirst 0%nat l0 j b' eq_refl ltac:(lia) Hb' Hp') as [?|[? _]]; lia.
Qed.

Lemma Helper_FindBlock_first a p sz idx :
  NDEBUG = true -> arena_ok a -> p <> NULL -> first_at a p sz idx ->
  Helper_FindBlock a p = Ret (Some (Z.of_nat sz, idx)).
Proof.
  intros HN (Hall & _) Hp [Hex Hfirst]. unfold Helper_FindBlock, assert.
  rewrite HN. destruct (Z.eqb_spec NULL p); [done|]. simpl.
  by rewrite (Helper_FindBlock_lists_first _ 0 p sz idx).
Qed.

(** ** StaticArrayFree and StaticArrayPoolInit keep the invariant *)

Lemma StaticArrayFree_arena_ok a p a' :
  arena_ok a -> StaticArrayFree_arena a p = Ret a' -> arena_ok a'.
Proof.
  intros Hok H. unfold StaticArrayFree_arena in H. inv_bind H.
  destruct v as [[sz idx]|]; [|by inv_ret H].
  apply Helper_FindBlock_Some in E as (Hp & l & b & Hl & Hb & Hptr & _).
  rewrite Hl in H. simpl in H. inv_bind H.
  apply read_list_Ret in Hl as [_ Hl]. apply read_block_Ret in Hb as [_ Hb].
  apply write_is_free_Ret in E as (b' & _ & Hb' & ->).
  assert (b' = b) by congruence. subst b'.
  pose proof (arena_ok_lookup _ _ _ Hok Hl) as Hlok.
  pose proof (list_ok_lookup _ _ _ Hlok Hb) as [Hge _].
  destruct (BlockSize_E_to_Int !! Z.to_nat sz); inv_ret H.
  apply arena_ok_set_space_available.
  apply (arena_ok_write_list _ _ _ l); try done.
  apply list_ok_set_blocks; [done|]. split; simpl; [done|].
  unfold NULL in Hp. lia.
Qed.

(** The pool is an object at a non-null address, and its size is a value
    of [size_t]. *)
Hypothesis ArrayArenaPool_addr_pos : 0 < ArrayArenaPool_addr.
Hypothesis VEC_ARRAY_ARENA_SIZE_fits : 0 <= VEC_ARRAY_ARENA_SIZE < SIZE_T_MODULUS.

Lemma StaticArrayPoolInit_blocks_ok n : forall j list acc list' acc',
  list_ok list -> 0 <= acc ->
  StaticArrayPoolInit_blocks n j list acc = Ret (list', acc') ->
  list_ok list' /\ block_size list' = block_size list.
Proof.
  induction n as [|n IH]; intros j list acc list' acc' Hok Hacc H; simpl in H.
  - by inv_ret H.
  - inv_bind H. inv_bind H. inv_bind H. inv_bind H.
    apply write_ptr_Ret in E0 as (b0 & _ & Hb0 & ->).
    apply write_is_free_Ret in E1 as (b1 & _ & Hb1 & ->). simpl in *.
    rewrite list_lookup_insert_eq in Hb1 by (by apply lookup_lt_Some in Hb0).
    inv_ret Hb1. simpl in *.
    apply IH in H as [? ?]; [by simpl in *| |apply to_size_t_range].
    apply (list_ok_set_blocks (set_blocks list _));
      [apply list_ok_set_blocks; [done|]|]; split; simpl; lia.
Qed.

Lemma StaticArrayPoolInit_lists_ok ls : forall acc ls',
  Forall list_ok ls -> 0 <= acc ->
  StaticArrayPoolInit_lists ls acc = Ret ls' ->
  Forall list_ok ls' /\ block_size <$> ls' = block_size <$> ls.
Proof.
  induction ls as [|l rest IH]; intros acc ls' Hall Hacc H; simpl in H.
  - by inv_ret H.
  - inv_bind H. destruct v as [l' off]. inv_bind H. inv_ret H.
    apply Forall_cons in Hall as [Hl Hrest].
    assert (0 <= off).
    { clear -E Hacc. revert E. generalize 0 at 1.
      generalize (Z.to_nat (len l)). intros n. revert l acc Hacc.
      induction n as [|n IHn]; intros l acc Hacc j H; simpl in H.
      - by inv_ret H.
      - do 4 inv_bind H. eapply IHn; [|done]. apply to_size_t_range. }
    apply StaticArrayPoolInit_blocks_ok in E as [? Hbs]; [|done|done].
    apply IH in E0 as [? Hbs']; [|done|done].
    split; [by constructor|]. rewrite !fmap_cons. by f_equal.
Qed.

Lemma StaticArrayPoolInit_ok s s' :
  arena_ok (ArrayArena s) -> StaticArrayPoolInit s = Ret s' ->
  arena_ok (ArrayArena s').
Proof.
  intros (Hall & Hbs & Hsp) H. unfold StaticArrayPoolInit in H.
  inv_bind H. inv_bind H. inv_ret H.
  apply StaticArrayPoolInit_lists_ok in E0 as [? Hbs']; [|done|done].
  unfold arena_ok; simpl. by rewrite Hbs'.
Qed.

Lemma zero_blocks_ok k size n :
  32 <= k -> 0 <= size -> 0 <= n <= VEC_ARRAY_ARENA_SIZE / k + 1 ->
  list_ok (mkList (zero_blocks (VEC_ARRAY_ARENA_SIZE / k + 1)) size (to_size_t n)).
Proof.
  intros Hk Hsize Hn. unfold list_ok, zero_blocks; simpl.
  rewrite length_replicate. unfold SIZE_T_MODULUS in *.
  assert (VEC_ARRAY_ARENA_SIZE / k < 2 ^ 59)
    by (apply Z.div_lt_upper_bound; lia).
  rewrite to_size_t_small by (unfold SIZE_T_MODULUS; lia).
  split; [lia|]. split; [done|]. split; [lia|].
  apply Forall_replicate. split; simpl; [done|discriminate].
Qed.

Lemma init_len_bound k :
  0 < k -> 0 <= (VEC_ARRAY_ARENA_SIZE mod (2 * k)) / k + 1 - 1 <= VEC_ARRAY_ARENA_SIZE / k + 1.
Proof.
  intros Hk.
  pose proof (Z.mod_pos_bound VEC_ARRAY_ARENA_SIZE (2 * k) ltac:(lia)).
  assert (0 <= (VEC_ARRAY_ARENA_SIZE mod (2 * k)) / k) by (apply Z.div_pos; lia).
  assert ((VEC_ARRAY_ARENA_SIZE mod (2 * k)) / k < 2)
    by (apply Z.div_lt_upper_bound; lia).
  assert (0 <= VEC_ARRAY_ARENA_SIZE / k) by (apply Z.div_pos; lia).
  lia.
Qed.

Lemma ArrayArena_static_ok : arena_ok ArrayArena_static.
Proof.
  unfold arena_ok, ArrayArena_static; simpl. split_and!.
  - assert (0 <= VEC_ARRAY_ARENA_SIZE / 1024) by (apply Z.div_pos; lia).
    repeat apply Forall_cons_2; [..|apply Forall_nil_2];
      (apply zero_blocks_ok; [lia|lia|]).
    + unfold BLOCKS_1024_LIST_INIT_LEN. lia.
    + apply (init_len_bound 512); lia.
    + apply (init_len_bound 256); lia.
    + apply (init_len_bound 128); lia.
    + apply (init_len_bound 64); lia.
    + apply (init_len_bound 32); lia.
  - done.
  - apply to_size_t_range.
  - apply to_size_t_range.
Qed.

Lemma StaticArrayFree_ok s p s' :
  arena_ok (ArrayArena s) -> StaticArrayFree s p = Ret s' ->
  arena_ok (ArrayArena s').
Proof.
  intros Hok H. unfold StaticArrayFree in H. inv_bind H. inv_ret H.
  simpl. by eapply StaticArrayFree_arena_ok.
Qed.

Lemma StaticArrayRealloc_ok s p req s' q :
  arena_ok (ArrayArena s) -> StaticArrayRealloc s p req = Ret (s', q) ->
  arena_ok (ArrayArena s').
Proof.
  intros Hok H. unfold StaticArrayRealloc in H. inv_bind H.
  destruct v as [[sz idx]|]; [|by inv_ret H].
  inv_bind H. inv_bind H.
  destruct (is_free v0); [by inv_ret H|].
  destruct ((block_size v / 2 <? req) && (req <=? block_size v));
    [by inv_ret H|].
  destruct (0 =? req).
  - inv_bind H. inv_ret H. by eapply StaticArrayFree_ok.
  - inv_bind H. destruct v1 as [s1 tmp].
    apply StaticArrayAlloc_spec in E2 as (Hok1 & _ & _); [|done].
    destruct (negb (tmp =? NULL)); [|by inv_ret H].
    destruct (BlockSize_E_to_Int !! Z.to_nat sz); [|discriminate].
    inv_bind H. inv_bind H. inv_ret H.
    by eapply StaticArrayFree_ok in E3.
Qed.

Lemma step_ok s o s' :
  arena_ok (ArrayArena s) -> step s o = Ret s' -> arena_ok (ArrayArena s').
Proof.
  intros Hok H. destruct o; simpl in H.
  - by eapply StaticArrayPoolInit_ok.
  - inv_bind H. inv_ret H. destruct v as [s1 q].
    by apply StaticArrayAlloc_spec in E as (? & _).
  - inv_bind H. inv_ret H. destruct v as [s1 q].
    by eapply StaticArrayRealloc_ok.
  - by eapply StaticArrayFree_ok.
  - inv_bind H. by inv_ret H.
  - unfold store in H.
    destruct ((0 <=? p - ArrayArenaPool_addr)
              && (p - ArrayArenaPool_addr <? Z.of_nat (length (ArrayArenaPool s))));
      by inv_ret H.
Qed.

Lemma run_ok ops : forall s s',
  arena_ok (ArrayArena s) -> run s ops = Ret s' -> arena_ok (ArrayArena s').
Proof.
  induction ops as [|o rest IH]; intros s s' Hok H; simpl in H.
  - by inv_ret H.
  - inv_bind H. eapply IH; [|done]. by eapply step_ok.
Qed.

(** Every state the program can reach satisfies the invariant. *)
Lemma reachable_arena_ok s : reachable s -> arena_ok (ArrayArena s).
Proof.
  intros [ops H]. eapply run_ok; [|done]. apply ArrayArena_static_ok.
Qed.

(** ** Lists without a free descriptor *)





(** The size loop runs the class body at the class it stops at. *)
Lemma StaticArrayAlloc_sizes_selected a req sz loc :
  class_selected a req sz ->
  StaticArrayAlloc_sizes NUM_OF_BLOCK_SIZES 0 a req loc
  = StaticArrayAlloc_class a (Z.of_nat sz) loc.
Proof.
  intros (Hsz & Hskip & l & Hl & Hstop).
  assert (Hgen : forall n k, (k <= sz)%nat -> (sz - k < n)%nat ->
    StaticArrayAlloc_sizes n (Z.of_nat k) a req loc
    = StaticArrayAlloc_class a (Z.of_nat sz) loc).
  { induction n as [|n IH]; intros k Hk Hn; [lia|]. simpl.
    destruct (decide (k = sz)) as [->|Hne].
    - unfold read_list. destruct (Z.ltb_spec (Z.of_nat sz) 0); [lia|].
      rewrite Nat2Z.id, Hl. simpl.
      destruct (Z.ltb_spec req (block_size l / 2)); [lia|done].
    - destruct (lookup_lt_is_Some_2 (lists a) k) as [lk Hlk].
      { apply lookup_lt_Some in Hl. lia. }
      unfold read_list. destruct (Z.ltb_spec (Z.of_nat k) 0); [lia|].
      rewrite Nat2Z.id, Hlk. simpl.
      pose proof (Hskip k lk ltac:(lia) Hlk).
      destruct (Z.ltb_spec req (block_size lk / 2)); [|lia].
      replace (Z.of_nat k + 1) with (Z.of_nat (S k)) by lia.
      apply IH; lia. }
  apply (Hgen NUM_OF_BLOCK_SIZES 0%nat); lia.
Qed.

(** ** A scan over a list that holds a free descriptor *)

Lemma StaticArrayAlloc_scan_total n : forall i list loc,
  0 <= i -> i + Z.of_nat n <= Z.of_nat (length (blocks list)) ->
  exists list' loc', StaticArrayAlloc_scan n i list loc = Ret (list', loc').
Proof.
  induction n as [|n IH]; intros i list loc Hi Hn; simpl; [eauto|].
  destruct (lookup_lt_is_Some_2 (blocks list) (Z.to_nat i)) as [b Hb]; [lia|].
  unfold read_block at 1. destruct (Z.ltb_spec i 0); [lia|]. rewrite Hb. simpl.
  destruct (is_free b).
  - unfold write_is_free, read_block, write_block.
    destruct (Z.ltb_spec i 0); [lia|]. rewrite Hb. simpl.
    destruct (Nat.ltb_spec (Z.to_nat i) (length (blocks list))); [|lia].
    apply IH; [lia|]. simpl. rewrite length_insert. lia.
  - apply IH; lia.
Qed.

(** What the scan leaves in its locals: once a free descriptor has been
    met [found_block] stays set, and [block_ptr] is the address of a
    descriptor of the scanned range that was free when the scan began. *)
Lemma StaticArrayAlloc_scan_found list0 hi n : forall i list loc list' loc',
  0 <= i -> i + Z.of_nat n <= hi ->
  (forall k, i <= k -> blocks list !! Z.to_nat k = blocks list0 !! Z.to_nat k) ->
  StaticArrayAlloc_scan n i list loc = Ret (list', loc') ->
  (found_block loc = true \/
   (exists k b, i <= k < i + Z.of_nat n /\
      blocks list0 !! Z.to_nat k = Some b /\ is_free b = true) ->
   found_block loc' = true) /\
  ((found_block loc = true ->
    exists k b, 0 <= k < hi /\ blocks list0 !! Z.to_nat k = Some b /\
      is_free b = true /\ block_ptr loc = ptr b) ->
   found_block loc' = true ->
   exists k b, 0 <= k < hi /\ blocks list0 !! Z.to_nat k = Some b /\
     is_free b = true /\ block_ptr loc' = ptr b).
Proof.
  induction n as [|n IH]; intros i list loc list' loc' Hi Hn Hsame H; simpl in H.
  - inv_ret H. split; [|auto]. intros [?|(k & ? & ? & _)]; [done|lia].
  - inv_bind H. apply read_block_Ret in E as [_ Hb].
    rewrite Hsame in Hb by lia.
    destruct (is_free v) eqn:Hfree.
    + inv_bind H. apply write_is_free_Ret in E as (b' & _ & _ & ->).
      apply IH in H as [H1 H2]; [|lia|lia|].
      * split; [intros _; apply H1; by left|].
        intros _. apply H2. intros _. exists i, v. simpl. split_and!; try done; lia.
      * intros k Hk. simpl. rewrite list_lookup_insert_ne by lia.
        apply Hsame. lia.
    + apply IH in H as [H1 H2]; [|lia|lia|].
      * split; [|done]. intros [?|(k & b & Hk & Hkb & Hkf)]; apply H1; [by left|].
        right. exists k, b. split; [|done].
        destruct (Z.eq_dec k i) as [->|]; [congruence|lia].
      * intros k Hk. apply Hsame. lia.
Qed.

(** With assertions compiled in, a request above 1024 bytes that passes the
    [space_available] test stops at [assert( req_bytes <= 1024 )]: the call
    can only return for [req_bytes > space_available], and then with the
    null pointer and the state untouched. *)
Lemma StaticArrayAlloc_too_large_debug s req s' p :
  NDEBUG = false -> 1024 < req ->
  StaticArrayAlloc s req = Ret (s', p) -> p = NULL /\ s' = s.
Proof.
  intros HN Hreq H. unfold StaticArrayAlloc in H. inv_bind H.
  destruct (space_available (ArrayArena s) <? req); [by inv_ret H|].
  inv_bind H. inv_bind H. unfold assert in E1. rewrite HN in E1.
  destruct (Z.leb_spec req 1024); [lia|discriminate].
Qed.

(** With NDEBUG, a request of exactly 1024 bytes succeeds in every reachable
    state that has the space and a free descriptor in the 1024 list: the
    call returns, and returns the address of a descriptor of that list
    that was free. *)
Lemma StaticArrayAlloc_largest_succeeds s l k b :
  NDEBUG = true -> reachable s ->
  1024 <= space_available (ArrayArena s) ->
  lists (ArrayArena s) !! 0%nat = Some l ->
  0 <= k < len l -> blocks l !! Z.to_nat k = Some b -> is_free b = true ->
  exists s' p, StaticArrayAlloc s 1024 = Ret (s', p) /\ p <> NULL /\
    block_size l = 1024 /\
    exists k' b', 0 <= k' < len l /\ blocks l !! Z.to_nat k' = Some b' /\
      is_free b' = true /\ ptr b' = p.
Proof.
  intros HN Hr Hsp Hl Hk Hb Hfree.
  apply reachable_arena_ok in Hr as Hok.
  pose proof (arena_ok_lookup _ _ _ Hok Hl) as Hlok.
  assert (Hbs : block_size l = 1024).
  { destruct Hok as (_ & Hbs & _).
    apply (f_equal (fun x => x !! 0%nat)) in Hbs.
    rewrite list_lookup_fmap, Hl in Hbs. simpl in Hbs. congruence. }
  assert (Hsel : class_selected (ArrayArena s) 1024 0).
  { split; [unfold NUM_OF_BLOCK_SIZES; lia|]. split; [intros; lia|].
    exists l. split; [done|]. rewrite Hbs. by vm_compute. }
  unfold StaticArrayAlloc.
  rewrite (StaticArrayAlloc_sizes_selected _ _ 0%nat) by done.
  unfold assert. rewrite HN. simpl.
  destruct (Z.ltb_spec (space_available (ArrayArena s)) 1024); [lia|].
  unfold StaticArrayAlloc_class, read_list.
  change (Z.of_nat 0) with 0. change (0 <? 0) with false.
  change (Z.to_nat 0) with 0%nat. rewrite Hl. simpl.
  destruct (StaticArrayAlloc_scan_total (Z.to_nat (len l)) 0 l
              (mkLocals false 0 NULL)) as (l' & loc' & Hscan);
    [lia|destruct Hlok as (? & _); lia|].
  rewrite Hscan. simpl.
  pose proof (StaticArrayAlloc_scan_spec _ _ _ _ _ _ Hlok Hscan)
    as (_ & _ & _ & Hcase).
  pose proof Hlok as (Hlen & _).
  destruct (StaticArrayAlloc_scan_found l (len l) (Z.to_nat (len l)) 0 l
              (mkLocals false 0 NULL) l' loc'
              ltac:(lia) ltac:(lia) ltac:(done) Hscan) as [Hf Hp].
  assert (Hfound : found_block loc' = true).
  { apply Hf. right. exists k, b. split; [lia|done]. }
  destruct (Hp ltac:(simpl; discriminate) Hfound) as (k' & b' & ? & ? & ? & Hptr).
  rewrite Hfound. simpl. eexists _, _. split; [done|].
  destruct Hcase as [[_ ->]|[_ Hpos]]; [done|].
  split; [unfold NULL; lia|]. split; [done|]. by exists k', b'.
Qed.

(** ** StaticArrayRealloc on the descriptor the lookup stops at *)

(** With NDEBUG, in a state that satisfies the invariant: when the first
    live descriptor that holds the non-null address [p] is allocated and
    belongs to a list of block size [c], a request in [(c/2, c]] makes
    [StaticArrayRealloc] return [p] and leave the state as it was. *)
Lemma StaticArrayRealloc_first_descriptor_best_fit s p req sz idx l b :
  NDEBUG = true -> arena_ok (ArrayArena s) -> p <> NULL ->
  first_at (ArrayArena s) p sz idx ->
  lists (ArrayArena s) !! sz = Some l ->
  blocks l !! Z.to_nat idx = Some b ->
  is_free b = false ->
  block_size l / 2 < req <= block_size l ->
  StaticArrayRealloc s p req = Ret (s, p).
Proof.
  intros HN Hok Hp Hfirst Hl Hb Hfree [Hlo Hhi]. unfold StaticArrayRealloc.
  rewrite (Helper_FindBlock_first _ _ sz idx) by done. simpl.
  destruct Hfirst as [(l' & b' & Hl' & Hidx & _) _].
  unfold read_list, read_block.
  destruct (Z.ltb_spec (Z.of_nat sz) 0); [lia|]. rewrite Nat2Z.id, Hl. simpl.
  destruct (Z.ltb_spec idx 0); [lia|]. rewrite Hb. simpl. rewrite Hfree.
  destruct (Z.ltb_spec (block_size l / 2) req); [|lia].
  destruct (Z.leb_spec req (block_size l)); [|lia]. done.
Qed.

(** ** What the code does where the specification says otherwise *)


(** [StaticArrayFree] on an address whose descriptor is already free
    returns with the lists as they were and [space_available] raised by the
    class size once more. *)
Lemma StaticArrayFree_of_free_block s p sz idx l b c :
  Helper_FindBlock (ArrayArena s) p = Ret (Some (sz, idx)) ->
  read_list (ArrayArena s) sz = Ret l ->
  read_block l idx = Ret b ->
  is_free b = true ->
  BlockSize_E_to_Int !! Z.to_nat sz = Some c ->
  exists s', StaticArrayFree s p = Ret s' /\
    lists (ArrayArena s') = lists (ArrayArena s) /\
    space_available (ArrayArena s')
    = to_size_t (space_available (ArrayArena s) + c).
Proof.
  intros Hfind Hl Hb Hfree Hc. unfold StaticArrayFree, StaticArrayFree_arena.
  rewrite Hfind. simpl. rewrite Hl. simpl.
  unfold write_is_free. rewrite Hb. simpl.
  apply read_block_Ret in Hb as [Hidx Hb]. apply read_list_Ret in Hl as [Hsz Hl].
  unfold write_block. destruct (Z.ltb_spec idx 0); [lia|].
  pose proof (lookup_lt_Some _ _ _ Hb).
  destruct (Nat.ltb_spec (Z.to_nat idx) (length (blocks l))); [|lia].
  simpl. rewrite Hc. simpl. eexists. split; [done|]. simpl. split; [|done].
  assert (Hsame : mkBlock (ptr b) true = b) by (destruct b; simpl in *; by subst).
  rewrite Hsame, (list_insert_id (blocks l)) by done.
  unfold set_blocks. destruct l; simpl in *. by rewrite list_insert_id.
Qed.

(** * The claims *)

(** C10.  Whenever [StaticArrayAlloc] returns the null pointer, in any
    state a run of the program can reach and for any request, the state it
    returns is the state it was called in: every descriptor's address and
    flag, every list's [len], and [space_available] are as before. *)
Theorem C10_alloc_failure_is_atomic s req s' :
  reachable s ->
  StaticArrayAlloc s req = Ret (s', NULL) ->
  s' = s.
Proof.
  intros Hr H. apply reachable_arena_ok in Hr.
  by apply StaticArrayAlloc_spec in H as (_ & _ & ->).
Qed.

(** C9.  For an address [p] that [StaticArrayIsAlloc] reports allocated and
    a non-zero request (a zero request frees instead of allocating): when
    the [StaticArrayAlloc] call inside [StaticArrayRealloc] fails,
    [StaticArrayRealloc] returns [p] itself and the whole state, the bytes of
    the pool included, is as before, so [p] is still allocated. *)
Theorem C9_realloc_failure_keeps_old_block s p req s1 :
  reachable s ->
  StaticArrayIsAlloc s p = Ret true ->
  req <> 0 ->
  StaticArrayAlloc s req = Ret (s1, NULL) ->
  exists s', StaticArrayRealloc s p req = Ret (s', p) /\ s' = s /\
    StaticArrayIsAlloc s' p = Ret true /\
    ArrayArenaPool s' = ArrayArenaPool s.
Proof.
  intros Hr Hal Hreq Hfail. exists s. split; [|done].
  apply reachable_arena_ok in Hr.
  apply StaticArrayAlloc_spec in Hfail as Hs1; [|done].
  destruct Hs1 as (_ & _ & Hs1). specialize (Hs1 eq_refl). subst s1.
  unfold StaticArrayIsAlloc in Hal. unfold StaticArrayRealloc.
  destruct (Helper_FindBlock (ArrayArena s) p) as [[[sz idx]|]| |];
    simpl in *; try discriminate.
  destruct (read_list (ArrayArena s) sz) as [l| |]; simpl in *; try discriminate.
  destruct (read_block l idx) as [b| |]; simpl in *; try discriminate.
  destruct (is_free b); [discriminate|].
  destruct ((block_size l / 2 <? req) && (req <=? block_size l)); [done|].
  destruct req; [done| |]; by rewrite Hfail.
Qed.



(** C7, as the code has it.  [StaticArrayAlloc] has no too-large outcome:
    [req_bytes <= 1024] is an asserted precondition.  In a build with
    assertions a request above 1024 bytes never yields an address and never
    changes the state: the call returns the null pointer, for a request
    above [space_available], or it stops at an assertion.  In a build with
    NDEBUG a request above [space_available] returns the null pointer and
    leaves the state as it was.  A request of exactly 1024 bytes succeeds,
    in a build with NDEBUG and a reachable state, when [space_available] is
    at least 1024 and the 1024 list holds a free descriptor: the call
    returns the address of such a descriptor. *)
Theorem C7_too_large_is_a_precondition_not_an_error s :
  (NDEBUG = false ->
   forall req s' p, 1024 < req ->
     StaticArrayAlloc s req = Ret (s', p) -> p = NULL /\ s' = s) /\
  (NDEBUG = true ->
   forall req, space_available (ArrayArena s) < req ->
     StaticArrayAlloc s req = Ret (s, NULL)) /\
  (NDEBUG = true -> reachable s ->
   1024 <= space_available (ArrayArena s) ->
   forall l k b,
     lists (ArrayArena s) !! 0%nat = Some l ->
     0 <= k < len l -> blocks l !! Z.to_nat k = Some b -> is_free b = true ->
     exists s' p, StaticArrayAlloc s 1024 = Ret (s', p) /\ p <> NULL /\
       block_size l = 1024 /\
       exists k' b', 0 <= k' < len l /\ blocks l !! Z.to_nat k' = Some b' /\
         is_free b' = true /\ ptr b' = p).
Proof.
  split_and!.
  - intros HN req s' p. by apply StaticArrayAlloc_too_large_debug.
  - intros HN req Hreq. unfold StaticArrayAlloc, assert. rewrite HN. simpl.
    by destruct (Z.ltb_spec (space_available (ArrayArena s)) req); [|lia].
  - intros HN Hr Hsp l k b. by apply StaticArrayAlloc_largest_succeeds.
Qed.

End Facts.

(** * The claims on concrete runs *)

(** C1.  A pool of 2048 bytes, NDEBUG; after [Init] the 1024 list holds
    two free blocks, at 4096 and at 5120.  The specification has a direct
    hit return the first of them and mark that one alone.  [Alloc(1000)]
    returns 5120, the last one, and leaves both marked allocated. *)
Theorem C1_direct_hit_takes_every_free_block :
  let c := build 2048 true in
  let s := state_after c [Init] in
  boot c [Init] = Ret s /\
  view s = ([[FREE 4096; FREE 5120]; []; []; []; []; []], 2048) /\
  ptr <$> spec_first_free [FREE 4096; FREE 5120] = Some 4096 /\
  exists s', StaticArrayAlloc (cfg := c) s 1000 = Ret (s', 5120) /\
    view s' = ([[USED 4096; USED 5120]; []; []; []; []; []], 1024).
Proof.
  cbv zeta. split_and!; [by vm_compute..|].
  eexists. split; by vm_compute.
Qed.

(** C2.  The same run: after [Init; Alloc(1000)] two blocks of 1024 bytes
    are allocated and [space_available] is 1024, so [space_available] plus
    the allocated bytes is 3072, not the 2048 usable bytes. *)
Theorem C2_space_accounting_broken_by_alloc :
  let c := build 2048 true in
  let s := state_after c [Init; Alloc 1000] in
  boot c [Init; Alloc 1000] = Ret s /\
  space_available (ArrayArena s) = 1024 /\
  allocated_bytes (ArrayArena s) = 2048 /\
  usable_bytes (cfg := c) = 2048 /\
  ~ space_accounting (cfg := c) (ArrayArena s).
Proof.
  cbv zeta. split_and!; [by vm_compute..|].
  unfold space_accounting. by vm_compute.
Qed.

(** C3.  A pool of 1280 bytes, NDEBUG: [Init] makes one block of 1024 bytes
    at 4096 and one of 256 bytes at 5120.  [Alloc(300)] selects the 512
    class, finds it empty, and splits the block of the list at the next
    index, the 256 one: the 512 list receives descriptors at 5120 and at
    5376, whose 512-byte ranges overlap. *)
Theorem C3_split_creates_overlapping_descriptors :
  let c := build 1280 true in
  let s := state_after c [Init; Alloc 300] in
  boot c [Init; Alloc 300] = Ret s /\
  view (state_after c [Init])
    = ([[FREE 4096]; []; [FREE 5120]; []; []; []], 1280) /\
  view s = ([[FREE 4096]; [USED 5120; FREE 5376]; []; []; []; []], 768) /\
  live_ranges (ArrayArena s) = [(4096, 1024); (5120, 512); (5376, 512)] /\
  ~ no_overlap (live_ranges (ArrayArena s)).
Proof.
  cbv zeta. split_and!; [by vm_compute..|].
  intros H.
  assert (Hf : true = false); [|discriminate Hf].
  apply (H 1%nat 2%nat (5120, 512) (5376, 512)); [lia|by vm_compute..].
Qed.

(** C4.  A pool of 192 bytes, NDEBUG: after [Init] there is one free block
    of 128 bytes at 4096 and one free block of 64 bytes at 4224.  The
    smallest class that holds 64 bytes is the 64 class.  [Alloc(64)] is not
    skipped by the test [req_bytes < 128 / 2], so it takes the 128-byte
    block: the lookup resolves the returned address to list 3, and
    [128 / 2 < 64] does not hold. *)
Theorem C4_alloc_of_half_a_class_takes_the_larger_class :
  let c := build 192 true in
  let s := state_after c [Init] in
  boot c [Init] = Ret s /\
  view s = ([[]; []; []; [FREE 4096]; [FREE 4224]; []], 192) /\
  spec_best_class 64 = Some 64 /\
  exists s', StaticArrayAlloc (cfg := c) s 64 = Ret (s', 4096) /\
    view s' = ([[]; []; []; [USED 4096]; [FREE 4224]; []], 64) /\
    Helper_FindBlock (cfg := c) (ArrayArena s') 4096 = Ret (Some (3, 0)) /\
    BlockSize_E_to_Int !! 3%nat = Some 128 /\
    ~ (128 / 2 < 64).
Proof.
  cbv zeta. split_and!; [by vm_compute..|].
  eexists. split_and!; by vm_compute.
Qed.

(** C6.  A pool of 256 bytes, NDEBUG: [Init; Alloc(200)] allocates the one
    block, at 4096.  The first [Free(4096)] frees it and brings
    [space_available] back to 256.  The second [Free(4096)] finds the
    descriptor free and still adds the class size: [space_available]
    becomes 512, twice the pool. *)
Theorem C6_second_free_changes_space_available :
  let c := build 256 true in
  let s := state_after c [Init; Alloc 200] in
  boot c [Init; Alloc 200] = Ret s /\
  view s = ([[]; []; [USED 4096]; []; []; []], 0) /\
  exists s1 s2,
    StaticArrayFree (cfg := c) s 4096 = Ret s1 /\
    view s1 = ([[]; []; [FREE 4096]; []; []; []], 256) /\
    StaticArrayIsAlloc (cfg := c) s1 4096 = Ret false /\
    StaticArrayFree (cfg := c) s1 4096 = Ret s2 /\
    view s2 = ([[]; []; [FREE 4096]; []; []; []], 512) /\
    s2 <> s1.
Proof.
  cbv zeta. split_and!; [by vm_compute..|].
  eexists _, _. split_and!; [by vm_compute..|].
  intros H. apply (f_equal view) in H. by vm_compute in H.
Qed.

(** ** Counterexamples to the claims the code does not follow by design *)


(** C7 fails as stated: in a pool of 2048 bytes with NDEBUG, after [Init],
    [Alloc(1025)] returns the address 5120 and marks both blocks of 1024
    bytes allocated; in the same pool with assertions the call stops at an
    assertion.  Neither reports a too-large request. *)
Lemma C7_counterexample :
  let c := build 2048 true in
  let s := state_after c [Init] in
  let d := build 2048 false in
  boot c [Init] = Ret s /\
  (exists s', StaticArrayAlloc (cfg := c) s 1025 = Ret (s', 5120) /\
     5120 <> NULL /\
     view s = ([[FREE 4096; FREE 5120]; []; []; []; []; []], 2048) /\
     view s' = ([[USED 4096; USED 5120]; []; []; []; []; []], 1024)) /\
  boot d [Init] = Ret (state_after d [Init]) /\
  StaticArrayAlloc (cfg := d) (state_after d [Init]) 1025 = AssertFailed.
Proof.
  cbv zeta. split_and!; try by vm_compute.
  eexists. split_and!; by vm_compute.
Qed.

(** ** The general results at concrete inputs *)

Lemma build_addr_pos size ndebug : 0 < @ArrayArenaPool_addr (build size ndebug).
Proof. reflexivity. Defined.


(** C7 at a pool of 2048 bytes: with assertions a request of 4000 bytes
    returns the null pointer; with NDEBUG a request of 4000 bytes does the
    same and a request of 1024 bytes returns an address. *)
Lemma C7_witness :
  let c := build 2048 true in
  let d := build 2048 false in
  (StaticArrayAlloc (cfg := d) (state_after d [Init]) 4000
     = Ret (state_after d [Init], NULL) /\
   NULL = NULL /\ state_after d [Init] = state_after d [Init]) /\
  StaticArrayAlloc (cfg := c) (state_after c [Init]) 4000
    = Ret (state_after c [Init], NULL) /\
  exists s' p, StaticArrayAlloc (cfg := c) (state_after c [Init]) 1024 = Ret (s', p)
    /\ p <> NULL.
Proof.
  cbv zeta. split_and!.
  - by vm_compute.
  - apply (proj1 (C7_too_large_is_a_precondition_not_an_error
                    (cfg := build 2048 false) (build_addr_pos _ _)
                    ltac:(by vm_compute) (state_after (build 2048 false) [Init]))
             eq_refl 4000 _ NULL ltac:(lia) ltac:(by vm_compute)).
  - apply (proj1 (C7_too_large_is_a_precondition_not_an_error
                    (cfg := build 2048 false) (build_addr_pos _ _)
                    ltac:(by vm_compute) (state_after (build 2048 false) [Init]))
             eq_refl 4000 _ NULL ltac:(lia) ltac:(by vm_compute)).
  - apply (proj1 (proj2 (C7_too_large_is_a_precondition_not_an_error
                    (cfg := build 2048 true) (build_addr_pos _ _)
                    ltac:(by vm_compute) (state_after (build 2048 true) [Init])))
             eq_refl 4000). by vm_compute.
  - destruct (proj2 (proj2 (C7_too_large_is_a_precondition_not_an_error
                    (cfg := build 2048 true) (build_addr_pos _ _)
                    ltac:(by vm_compute) (state_after (build 2048 true) [Init])))
             eq_refl
             ltac:(exists [Init]; by vm_compute)
             ltac:(by vm_compute)
             _ 0 (FREE 4096)
             ltac:(by vm_compute) ltac:(by vm_compute) ltac:(by vm_compute) eq_refl)
      as (s' & p & H & Hp & _).
    by exists s', p.
Defined.


(** C9 at the same state: the block at 4096 is allocated, nothing is left
    ([space_available] is 0), so the [Alloc(100)] inside [Realloc] fails. *)
Lemma C9_witness :
  let c := build 256 true in
  let s := state_after c [Init; Alloc 200] in
  exists s', StaticArrayRealloc (cfg := c) s 4096 100 = Ret (s', 4096) /\ s' = s /\
    StaticArrayIsAlloc (cfg := c) s' 4096 = Ret true /\
    ArrayArenaPool s' = ArrayArenaPool s.
Proof.
  cbv zeta.
  apply (C9_realloc_failure_keeps_old_block (cfg := build 256 true)
           (build_addr_pos _ _) ltac:(by vm_compute)
           (state_after (build 256 true) [Init; Alloc 200]) 4096 100
           (state_after (build 256 true) [Init; Alloc 200])).
  - exists [Init; Alloc 200]. by vm_compute.
  - by vm_compute.
  - lia.
  - by vm_compute.
Defined.

(** C10 at a pool of 2048 bytes after [Init]: a request of 100 bytes selects
    the 128 class, empty like its neighbour, and fails. *)
Lemma C10_witness :
  let c := build 2048 true in
  let s := state_after c [Init] in
  StaticArrayAlloc (cfg := c) s 100 = Ret (s, NULL) /\ s = s.
Proof.
  cbv zeta. split; [by vm_compute|].
  apply (C10_alloc_failure_is_atomic (cfg := build 2048 true)
           (build_addr_pos _ _) ltac:(by vm_compute)
           (state_after (build 2048 true) [Init]) 100).
  - exists [Init]. by vm_compute.
  - by vm_compute.
Defined.

(** * Further properties of the allocator *)

Section Further.

Context {cfg : Build}.

Hypothesis ArrayArenaPool_addr_pos : 0 < ArrayArenaPool_addr.
Hypothesis VEC_ARRAY_ARENA_SIZE_fits : 0 <= VEC_ARRAY_ARENA_SIZE < SIZE_T_MODULUS.

Ltac inv_bind H :=
  let a := fresh "v" in
  let E := fresh "E" in
  apply bind_Ret in H; destruct H as (a & E & H).

Ltac inv_ret H := simplify_eq H; intros; subst.

(** ** The six lists *)

(** In a state that satisfies the invariant the arena holds its six lists,
    of block sizes 1024 down to 32. *)
Lemma arena_ok_six_lists a :
  arena_ok a ->
  exists l0 l1 l2 l3 l4 l5,
    lists a = [l0; l1; l2; l3; l4; l5] /\
    block_size l0 = 1024 /\ block_size l1 = 512 /\ block_size l2 = 256 /\
    block_size l3 = 128 /\ block_size l4 = 64 /\ block_size l5 = 32.
Proof.
  intros (_ & Hbs & _). unfold BlockSize_E_to_Int in Hbs.
  destruct (lists a) as [|l0 [|l1 [|l2 [|l3 [|l4 [|l5 [|l6 rest]]]]]]];
    try discriminate Hbs.
  injection Hbs as H0 H1 H2 H3 H4 H5.
  by exists l0, l1, l2, l3, l4, l5.
Qed.

(** ** Requests the size loop never serves *)

Lemma StaticArrayAlloc_sizes_skip n sz a req loc l :
  read_list a sz = Ret l -> req < block_size l / 2 ->
  StaticArrayAlloc_sizes (S n) sz a req loc
  = StaticArrayAlloc_sizes n (sz + 1) a req loc.
Proof.
  intros Hl Hlt. simpl. rewrite Hl. simpl.
  by destruct (Z.ltb_spec req (block_size l / 2)); [|lia].
Qed.

Lemma StaticArrayAlloc_sizes_stop n sz a req loc l :
  read_list a sz = Ret l -> block_size l / 2 <= req ->
  StaticArrayAlloc_sizes (S n) sz a req loc = StaticArrayAlloc_class a sz loc.
Proof.
  intros Hl Hlt. simpl. rewrite Hl. simpl.
  by destruct (Z.ltb_spec req (block_size l / 2)); [lia|].
Qed.

Lemma read_list_six a l0 l1 l2 l3 l4 l5 :
  lists a = [l0; l1; l2; l3; l4; l5] ->
  read_list a 0 = Ret l0 /\ read_list a 1 = Ret l1 /\ read_list a 2 = Ret l2 /\
  read_list a 3 = Ret l3 /\ read_list a 4 = Ret l4 /\ read_list a 5 = Ret l5.
Proof. intros Hl. unfold read_list. rewrite Hl. by split_and!. Qed.

Lemma StaticArrayAlloc_sizes_below_16 a req loc :
  arena_ok a -> req < 16 ->
  StaticArrayAlloc_sizes NUM_OF_BLOCK_SIZES 0 a req loc = Ret (a, loc).
Proof.
  intros Hok Hreq.
  destruct (arena_ok_six_lists a Hok)
    as (l0 & l1 & l2 & l3 & l4 & l5 & Hl & H0 & H1 & H2 & H3 & H4 & H5).
  destruct (read_list_six _ _ _ _ _ _ _ Hl) as (R0 & R1 & R2 & R3 & R4 & R5).
  assert (block_size l0 / 2 = 512) by (by rewrite H0).
  assert (block_size l1 / 2 = 256) by (by rewrite H1).
  assert (block_size l2 / 2 = 128) by (by rewrite H2).
  assert (block_size l3 / 2 = 64) by (by rewrite H3).
  assert (block_size l4 / 2 = 32) by (by rewrite H4).
  assert (block_size l5 / 2 = 16) by (by rewrite H5).
  unfold NUM_OF_BLOCK_SIZES.
  rewrite (StaticArrayAlloc_sizes_skip _ 0 _ _ _ l0) by (done || lia).
  rewrite (StaticArrayAlloc_sizes_skip _ (0 + 1) _ _ _ l1) by (done || lia).
  rewrite (StaticArrayAlloc_sizes_skip _ (0 + 1 + 1) _ _ _ l2) by (done || lia).
  rewrite (StaticArrayAlloc_sizes_skip _ (0 + 1 + 1 + 1) _ _ _ l3) by (done || lia).
  rewrite (StaticArrayAlloc_sizes_skip _ (0 + 1 + 1 + 1 + 1) _ _ _ l4)
    by (done || lia).
  rewrite (StaticArrayAlloc_sizes_skip _ (0 + 1 + 1 + 1 + 1 + 1) _ _ _ l5)
    by (done || lia).
  done.
Qed.

(** With NDEBUG, in every reachable state, a request of fewer than 16
    bytes (half the smallest class) is skipped by every turn of the size
    loop: the call returns the null pointer and the state is unchanged, even
    when every block is free. *)
Theorem alloc_below_16_bytes_always_fails s req :
  NDEBUG = true -> reachable s -> req < 16 ->
  StaticArrayAlloc s req = Ret (s, NULL).
Proof.
  intros HN Hr Hreq.
  apply (reachable_arena_ok ArrayArenaPool_addr_pos VEC_ARRAY_ARENA_SIZE_fits) in Hr.
  unfold StaticArrayAlloc.
  rewrite StaticArrayAlloc_sizes_below_16 by done.
  unfold assert. rewrite HN. simpl.
  destruct (space_available (ArrayArena s) <? req); [done|].
  rewrite Z.sub_0_r, to_size_t_small by apply Hr.
  by destruct s as [[? ? ?] ?].
Qed.

(** Without NDEBUG, in every reachable state, [StaticArrayAlloc] never hands
    out a block: the loop that asserts the order of the lists compares 512
    with 1024 the wrong way round, so the call returns only for a request
    above [space_available], with the null pointer and the state unchanged. *)
Theorem alloc_with_assertions_never_allocates s req s' p :
  NDEBUG = false -> reachable s ->
  StaticArrayAlloc s req = Ret (s', p) ->
  space_available (ArrayArena s) < req /\ p = NULL /\ s' = s.
Proof.
  intros HN Hr H.
  apply (reachable_arena_ok ArrayArenaPool_addr_pos VEC_ARRAY_ARENA_SIZE_fits) in Hr.
  destruct (arena_ok_six_lists _ Hr)
    as (l0 & l1 & l2 & l3 & l4 & l5 & Hl & H0 & H1 & _).
  unfold StaticArrayAlloc in H. inv_bind H.
  destruct (Z.ltb_spec (space_available (ArrayArena s)) req); [by inv_ret H|].
  inv_bind H. rewrite HN, Hl in E0. simpl in E0.
  unfold assert in E0. rewrite HN, H0, H1 in E0. discriminate E0.
Qed.

(** ** Addresses the lookup does not know *)

Lemma Helper_FindBlock_lists_miss ls : forall sz p,
  Forall list_ok ls ->
  (forall l b, l ∈ ls -> b ∈ live_blocks l -> ptr b <> p) ->
  Helper_FindBlock_lists ls sz p None = Ret None.
Proof.
  induction ls as [|l rest IH]; intros sz p Hall Hmiss; simpl.
  - by destruct NDEBUG.
  - apply Forall_cons in Hall as [(Hlen & _) Hrest].
    rewrite Helper_FindBlock_list_miss; [|lia|lia|].
    + simpl. apply IH; [done|]. intros l' b Hl'. apply Hmiss. by right.
    + intros j b Hj Hb. apply (Hmiss l b); [by left|].
      apply (list_elem_of_lookup_2 _ (Z.to_nat j)).
      unfold live_blocks. rewrite lookup_take_lt by lia. done.
Qed.

Lemma Helper_FindBlock_unknown a p :
  arena_ok a -> NDEBUG = true \/ arena_initialized a = true ->
  p = NULL \/ (forall l b, l ∈ lists a -> b ∈ live_blocks l -> ptr b <> p) ->
  Helper_FindBlock a p = Ret None.
Proof.
  intros (Hall & _) Hinit Hp. unfold Helper_FindBlock, assert.
  assert (Ha : (if NDEBUG then Ret tt
                else if arena_initialized a then Ret tt else AssertFailed)
               = Ret tt).
  { destruct Hinit as [->| ->]; [done|by destruct NDEBUG]. }
  rewrite Ha. destruct (Z.eqb_spec NULL p) as [|Hne]; [done|]. simpl.
  destruct Hp as [->|Hp]; [done|]. by apply Helper_FindBlock_lists_miss.
Qed.

(** In every reachable state (initialised, or of a build with NDEBUG), the
    null pointer and every address that no live descriptor holds are
    ignored: [StaticArrayFree] changes nothing, [StaticArrayIsAlloc] answers
    false and [StaticArrayRealloc] returns the null pointer and changes
    nothing. *)
Theorem unknown_address_is_ignored s p :
  reachable s ->
  NDEBUG = true \/ arena_initialized (ArrayArena s) = true ->
  p = NULL \/
    (forall l b, l ∈ lists (ArrayArena s) -> b ∈ live_blocks l -> ptr b <> p) ->
  StaticArrayFree s p = Ret s /\
  StaticArrayIsAlloc s p = Ret false /\
  forall req, StaticArrayRealloc s p req = Ret (s, NULL).
Proof.
  intros Hr Hinit Hp.
  apply (reachable_arena_ok ArrayArenaPool_addr_pos VEC_ARRAY_ARENA_SIZE_fits) in Hr.
  pose proof (Helper_FindBlock_unknown _ _ Hr Hinit Hp) as Hfind.
  unfold StaticArrayFree, StaticArrayFree_arena, StaticArrayIsAlloc,
    StaticArrayRealloc.
  rewrite Hfind. simpl. split_and!; try done. by destruct s.
Qed.

(** ** StaticArrayRealloc at its edges *)

(** For an address that [StaticArrayIsAlloc] does not report allocated (no
    descriptor, or a free one), [StaticArrayRealloc] returns the null pointer
    and leaves the state as it was, whatever the request. *)
Theorem realloc_of_unallocated_address_fails s p req :
  StaticArrayIsAlloc s p = Ret false ->
  StaticArrayRealloc s p req = Ret (s, NULL).
Proof.
  unfold StaticArrayIsAlloc, StaticArrayRealloc. intros H.
  destruct (Helper_FindBlock (ArrayArena s) p) as [[[sz idx]|]| |];
    simpl in *; try done.
  destruct (read_list (ArrayArena s) sz) as [l| |]; simpl in *; try done.
  destruct (read_block l idx) as [b| |]; simpl in *; try done.
  by destruct (is_free b).
Qed.

(** For an allocated block, in a state that satisfies the invariant,
    [StaticArrayRealloc(p, 0)] is [StaticArrayFree(p)] followed by a null
    return: a request of zero bytes is never taken for a best fit. *)
Theorem realloc_to_zero_frees s p :
  reachable s ->
  StaticArrayIsAlloc s p = Ret true ->
  StaticArrayRealloc s p 0 = (s' ← StaticArrayFree s p; Ret (s', NULL)).
Proof.
  intros Hr H.
  apply (reachable_arena_ok ArrayArenaPool_addr_pos VEC_ARRAY_ARENA_SIZE_fits) in Hr.
  unfold StaticArrayIsAlloc in H. unfold StaticArrayRealloc.
  destruct (Helper_FindBlock (ArrayArena s) p) as [[[sz idx]|]| |] eqn:Hfind;
    simpl in *; try done.
  destruct (read_list (ArrayArena s) sz) as [l| |] eqn:Hl; simpl in *; try done.
  destruct (read_block l idx) as [b| |]; simpl in *; try done.
  destruct (is_free b); [done|].
  apply read_list_Ret in Hl as [_ Hl].
  pose proof (arena_ok_lookup _ _ _ Hr Hl) as (_ & Hbs & _).
  assert (0 <= block_size l / 2) by (apply Z.div_pos; lia).
  by destruct (Z.ltb_spec (block_size l / 2) 0); [lia|].
Qed.

(** ** The lookup after a flag was written *)

(** The lookup reads addresses only: writing the flag of a descriptor does
    not change what it finds. *)
Lemma Helper_FindBlock_list_flag n : forall i sz list p found k b f,
  blocks list !! k = Some b ->
  Helper_FindBlock_list n i sz
    (set_blocks list (<[k := mkBlock (ptr b) f]> (blocks list))) p found
  = Helper_FindBlock_list n i sz list p found.
Proof.
  induction n as [|n IH]; intros i sz list p found k b f Hb; simpl; [done|].
  unfold read_block. simpl. destruct (i <? 0); [done|].
  destruct (decide (k = Z.to_nat i)) as [->|Hne].
  - rewrite list_lookup_insert_eq by (by apply lookup_lt_Some in Hb).
    rewrite Hb. simpl. destruct (ptr b =? p); [|by apply IH].
    destruct NDEBUG; [done|]. simpl.
    destruct (assert (negb (bool_decide (is_Some found)))); simpl; [|done..].
    by apply IH.
  - rewrite list_lookup_insert_ne by done.
    destruct (blocks list !! Z.to_nat i) as [bi|]; simpl; [|done].
    destruct (ptr bi =? p); [|by apply IH].
    destruct NDEBUG; [done|]. simpl.
    destruct (assert (negb (bool_decide (is_Some found)))); simpl; [|done..].
    by apply IH.
Qed.

Lemma Helper_FindBlock_lists_flag ls : forall sz0 p found m l k b f,
  ls !! m = Some l -> blocks l !! k = Some b ->
  Helper_FindBlock_lists
    (<[m := set_blocks l (<[k := mkBlock (ptr b) f]> (blocks l))]> ls) sz0 p found
  = Helper_FindBlock_lists ls sz0 p found.
Proof.
  induction ls as [|l0 rest IH]; intros sz0 p found m l k b f Hl Hb; [done|].
  destruct m as [|m]; simpl in *.
  - inv_ret Hl. by rewrite Helper_FindBlock_list_flag.
  - destruct (Helper_FindBlock_list _ _ _ _ _ _) as [[h|found']| |]; simpl;
      try done.
    by apply IH.
Qed.

Lemma StaticArrayFree_then_IsAlloc s p s' :
  StaticArrayFree s p = Ret s' ->
  StaticArrayIsAlloc s' p = Ret false.
Proof.
  intros H. unfold StaticArrayFree, StaticArrayFree_arena in H.
  unfold StaticArrayIsAlloc.
  destruct (Helper_FindBlock (ArrayArena s) p) as [[[sz idx]|]| |] eqn:Hfind0;
    simpl in H; try discriminate H.
  - destruct (read_list (ArrayArena s) sz) as [l| |] eqn:Hl; simpl in H;
      try discriminate H.
    destruct (write_is_free l idx true) as [l'| |] eqn:Hw; simpl in H;
      try discriminate H.
    destruct (BlockSize_E_to_Int !! Z.to_nat sz) as [c|]; simpl in H;
      [|discriminate H].
    inv_ret H. simpl.
    apply read_list_Ret in Hl as [Hsz Hl].
    apply write_is_free_Ret in Hw as (b & Hidx & Hb & ->).
    assert (Hfind : Helper_FindBlock
              (set_space_available
                 (write_list (ArrayArena s) sz
                    (set_blocks l (<[Z.to_nat idx := mkBlock (ptr b) true]> (blocks l))))
                 (to_size_t (space_available (ArrayArena s) + c))) p
            = Ret (Some (sz, idx))).
    { rewrite <- Hfind0. unfold Helper_FindBlock. simpl.
      by rewrite (Helper_FindBlock_lists_flag _ _ _ _ _ l). }
    rewrite Hfind. simpl. unfold read_list. simpl.
    destruct (Z.ltb_spec sz 0); [lia|].
    rewrite list_lookup_insert_eq by (by apply lookup_lt_Some in Hl). simpl.
    unfold read_block. simpl. destruct (Z.ltb_spec idx 0); [lia|].
    by rewrite list_lookup_insert_eq by (by apply lookup_lt_Some in Hb).
  - inv_ret H. simpl. by rewrite Hfind0.
Qed.

(** After [StaticArrayFree(p)] has returned, [StaticArrayIsAlloc(p)] answers
    false, in every state and in both builds. *)
Theorem free_then_is_alloc_is_false s p s' :
  StaticArrayFree s p = Ret s' ->
  StaticArrayIsAlloc s' p = Ret false.
Proof. apply StaticArrayFree_then_IsAlloc. Qed.

(** ** What a successful StaticArrayAlloc leaves behind *)

Lemma StaticArrayAlloc_scan_post n : forall i list loc list' loc',
  0 <= i ->
  StaticArrayAlloc_scan n i list loc = Ret (list', loc') ->
  (found_block loc = true ->
   space_allocated loc = block_size list /\
   exists k, 0 <= k < i /\
     blocks list !! Z.to_nat k = Some (mkBlock (block_ptr loc) false)) ->
  (found_block loc = true -> found_block loc' = true) /\
  (found_block loc' = false -> loc' = loc) /\
  (found_block loc' = true ->
   space_allocated loc' = block_size list /\
   exists k, 0 <= k < i + Z.of_nat n /\
     blocks list' !! Z.to_nat k = Some (mkBlock (block_ptr loc') false)).
Proof.
  induction n as [|n IH]; intros i list loc list' loc' Hi H Hpre; simpl in H.
  - inv_ret H. split; [done|]. split; [done|]. intros Hf.
    destruct (Hpre Hf) as (? & k & ? & ?). split; [done|]. exists k. split; [lia|done].
  - inv_bind H. apply read_block_Ret in E as [_ Hb].
    destruct (is_free v) eqn:Hfree.
    + inv_bind H. apply write_is_free_Ret in E as (b' & _ & Hb' & ->).
      assert (b' = v) by congruence. subst b'.
      apply IH in H as (H1 & H2 & H3); [|lia|].
      * specialize (H1 eq_refl). split; [done|]. split; [congruence|].
        intros Hf. destruct (H3 Hf) as (? & k & ? & ?). split; [done|].
        exists k. split; [lia|done].
      * intros _. simpl. split; [done|]. exists i. split; [lia|].
        by rewrite list_lookup_insert_eq by (by apply lookup_lt_Some in Hb).
    + apply IH in H as (H1 & H2 & H3); [|lia|].
      * split; [done|]. split; [done|]. intros Hf.
        destruct (H3 Hf) as (? & k & ? & ?). split; [done|].
        exists k. split; [lia|done].
      * intros Hf. destruct (Hpre Hf) as (? & k & ? & ?). split; [done|].
        exists k. split; [lia|done].
Qed.

(** One pass of the split loop body appends two descriptors to [list]:
    [{pb, allocated}] at index [len] and [{pb + bs, free}] at [len + 1];
    the entries below [len] stay as they were. *)
Lemma split_body_content list pb bs l1 l2 l3 l4 :
  list_ok list ->
  write_ptr list (len list) pb = Ret l1 ->
  write_ptr l1 (to_size_t (len l1 + 1)) (pb + bs) = Ret l2 ->
  write_is_free l2 (len l2) false = Ret l3 ->
  write_is_free l3 (to_size_t (len l3 + 1)) true = Ret l4 ->
  to_size_t (len l4 + 2) = len list + 2 /\
  to_size_t (len list + 2 - 2) = len list /\
  blocks l4 !! Z.to_nat (len list) = Some (mkBlock pb false) /\
  blocks l4 !! S (Z.to_nat (len list)) = Some (mkBlock (pb + bs) true) /\
  (forall k, (k < Z.to_nat (len list))%nat -> blocks l4 !! k = blocks list !! k).
Proof.
  intros Hok H1 H2 H3 H4.
  apply write_ptr_Ret in H1 as (b0 & HL & Hb0 & ->). simpl in H2.
  destruct Hok as (Hlen & Hbsl & Hcap & Hall).
  pose proof (lookup_lt_Some _ _ _ Hb0) as Hlt.
  destruct (index_after_len (len list) _ HL Hlt Hcap) as [Hi1 Hi2].
  apply write_ptr_Ret in H2 as (b1 & _ & Hb1 & ->). simpl in *.
  rewrite Hi1 in *.
  pose proof (lookup_lt_Some _ _ _ Hb1) as Hlt1. rewrite length_insert in Hlt1.
  apply write_is_free_Ret in H3 as (b2 & _ & Hb2 & ->). simpl in *.
  rewrite list_lookup_insert_ne in Hb2 by lia.
  rewrite list_lookup_insert_eq in Hb2 by lia. inv_ret Hb2. simpl in *.
  apply write_is_free_Ret in H4 as (b3 & _ & Hb3 & ->). simpl in *.
  rewrite Hi1 in *.
  rewrite list_lookup_insert_ne in Hb3 by lia.
  rewrite list_lookup_insert_eq in Hb3 by (rewrite ?length_insert; lia).
  inv_ret Hb3. simpl in *.
  assert (Hsmall : len list + 2 < SIZE_T_MODULUS) by (unfold SIZE_T_MODULUS; lia).
  split; [apply to_size_t_small; lia|].
  split; [replace (len list + 2 - 2) with (len list) by lia;
          apply to_size_t_small; lia|].
  split; [|split].
  - rewrite list_lookup_insert_ne by lia.
    by rewrite list_lookup_insert_eq by (rewrite ?length_insert; lia).
  - by rewrite list_lookup_insert_eq by (rewrite ?length_insert; lia).
  - intros k Hk. by rewrite !list_lookup_insert_ne by lia.
Qed.

Lemma StaticArrayAlloc_split_post n : forall i list larger loc list' larger' loc',
  list_ok list -> list_ok larger -> i < len larger ->
  StaticArrayAlloc_split n i list larger loc = Ret (list', larger', loc') ->
  (found_block loc = true ->
   space_allocated loc = block_size list /\ 2 <= len list /\
   blocks list !! Z.to_nat (len list - 2) = Some (mkBlock (block_ptr loc) false)) ->
  (found_block loc' = false -> loc' = loc) /\
  (found_block loc' = true ->
   space_allocated loc' = block_size list /\ 2 <= len list' /\
   blocks list' !! Z.to_nat (len list' - 2) = Some (mkBlock (block_ptr loc') false)).
Proof.
  induction n as [|n IH]; intros i list larger loc list' larger' loc' Hok Hok2 Hil H Hpre;
    simpl in H.
  - by inv_ret H.
  - inv_bind H. apply read_block_Ret in E as [Hi Hb].
    destruct (is_free v) eqn:Hfree; simpl in H.
    + pose proof (list_ok_lookup _ _ _ Hok2 Hb) as [_ Hpos].
      specialize (Hpos Hfree).
      inv_bind H. rename E into H1. inv_bind H. rename E into H2.
      inv_bind H. rename E into H3. inv_bind H. rename E into H4.
      inv_bind H. rename E into H5.
      destruct (split_body_spec _ _ _ _ _ _ _ _ Hok Hpos (proj1 (proj2 Hok2))
                  H1 H2 H3 H4 H5) as (Hok' & Hbs' & Hptr).
      destruct (split_body_content _ _ _ _ _ _ _ Hok H1 H2 H3 H4)
        as (Hlen' & Hidx & Hcontent & _).
      assert (Hl1 : to_size_t (len larger - 1) = len larger - 1).
      { destruct Hok2 as (? & _ & ? & _).
        apply to_size_t_small; unfold SIZE_T_MODULUS; lia. }
      rewrite Hl1 in *.
      assert (Hge : 0 <= len list) by apply Hok.
      apply IH in H as (H6 & H7); [| done | | simpl; lia |].
      * split.
        -- intros Hf. specialize (H6 Hf). rewrite H6 in Hf. discriminate Hf.
        -- intros Hf. destruct (H7 Hf) as (? & ? & ?). simpl in *.
           split; [congruence|]. by split.
      * apply list_ok_set_len; [done|]. destruct Hok2 as (? & _). lia.
      * intros _. simpl. rewrite Hlen'. split; [done|]. split; [lia|].
        replace (len list + 2 - 2) with (len list) by lia.
        by rewrite Hptr.
    + apply IH in H; [done..|lia|done].
Qed.

Lemma StaticArrayAlloc_class_post a sz loc a' loc' :
  arena_ok a ->
  StaticArrayAlloc_class a sz loc = Ret (a', loc') ->
  (found_block loc' = false ->
   block_ptr loc' = block_ptr loc /\ space_allocated loc' = space_allocated loc) /\
  (found_block loc' = true ->
   exists l l' k,
     lists a !! Z.to_nat sz = Some l /\ lists a' !! Z.to_nat sz = Some l' /\
     block_size l' = block_size l /\ space_allocated loc' = block_size l /\
     0 <= k < len l' /\
     blocks l' !! Z.to_nat k = Some (mkBlock (block_ptr loc') false)).
Proof.
  intros Hok H. unfold StaticArrayAlloc_class in H.
  inv_bind H. rename v into l. apply read_list_Ret in E as [Hsz Hl].
  pose proof (arena_ok_lookup _ _ _ Hok Hl) as Hlok.
  pose proof (lookup_lt_Some _ _ _ Hl) as Hszlt.
  inv_bind H. destruct v as [list1 loc1].
  pose proof (StaticArrayAlloc_scan_spec _ _ _ _ _ _ Hlok E)
    as (Hok1 & Hlen1 & Hbs1 & _).
  apply StaticArrayAlloc_scan_post in E as (_ & Hno1 & Hyes1);
    [|lia|simpl; discriminate].
  destruct (found_block loc1) eqn:Hf1; simpl in H.
  - inv_ret H. split; [congruence|]. intros _.
    destruct (Hyes1 eq_refl) as (Hsa & k & Hk & Hkb).
    exists l, list1, k. simpl.
    rewrite list_lookup_insert_eq by done.
    split_and!; try done; destruct Hlok as (? & _); lia.
  - specialize (Hno1 eq_refl). subst loc1.
    destruct (Z.eqb_spec sz BLKS_LARGEST_SIZE) as [Hz|Hnz]; simpl in H.
    + inv_ret H. by split.
    + inv_bind H. rename v into larger. apply read_list_Ret in E as [_ Hl2].
      pose proof (arena_ok_lookup _ _ _ Hok Hl2) as Hlok2.
      inv_bind H. destruct v as [[list2 larger2] loc2]. inv_ret H.
      pose proof (StaticArrayAlloc_split_spec _ _ _ _ _ _ _ _ Hok1 Hlok2
                    ltac:(apply to_int_len_pred; destruct Hlok2 as (? & _ & ? & _);
                          unfold SIZE_T_MODULUS; lia) E)
        as (Hok2 & _ & Hbs2 & _).
      apply StaticArrayAlloc_split_post in E as (Hno2 & Hyes2);
        [|done|done| |simpl; discriminate].
      2:{ apply to_int_len_pred. destruct Hlok2 as (? & _ & ? & _).
          unfold SIZE_T_MODULUS; lia. }
      split.
      * intros Hf. by rewrite (Hno2 Hf).
      * intros Hf. destruct (Hyes2 Hf) as (Hsa & Hlen2 & Hkb).
        exists l, list2, (len list2 - 2). simpl.
        rewrite list_lookup_insert_eq
          by (rewrite length_insert; done).
        split_and!; try done; try congruence; lia.
Qed.

(** The size loop either skips every class, for a request below 16 bytes,
    or runs the class body at the class it selects. *)
Lemma StaticArrayAlloc_sizes_cases a req loc :
  arena_ok a ->
  (req < 16 /\
   StaticArrayAlloc_sizes NUM_OF_BLOCK_SIZES 0 a req loc = Ret (a, loc)) \/
  (exists sz, class_selected a req sz /\
     StaticArrayAlloc_sizes NUM_OF_BLOCK_SIZES 0 a req loc
     = StaticArrayAlloc_class a (Z.of_nat sz) loc).
Proof.
  intros Hok. destruct (Z.lt_ge_cases req 16) as [Hlt|Hge].
  { left. split; [done|]. by apply StaticArrayAlloc_sizes_below_16. }
  right.
  destruct (arena_ok_six_lists a Hok)
    as (l0 & l1 & l2 & l3 & l4 & l5 & Hl & H0 & H1 & H2 & H3 & H4 & H5).
  assert (Hhalf : block_size l0 / 2 = 512 /\ block_size l1 / 2 = 256 /\
                  block_size l2 / 2 = 128 /\ block_size l3 / 2 = 64 /\
                  block_size l4 / 2 = 32 /\ block_size l5 / 2 = 16).
  { rewrite H0, H1, H2, H3, H4, H5. by split_and!. }
  destruct Hhalf as (E0 & E1 & E2 & E3 & E4 & E5).
  assert (Hsel : exists sz, class_selected a req sz).
  { assert (Hpick : 512 <= req \/ 256 <= req < 512 \/ 128 <= req < 256 \/
                    64 <= req < 128 \/ 32 <= req < 64 \/ 16 <= req < 32) by lia.
    unfold class_selected, NUM_OF_BLOCK_SIZES. rewrite Hl.
    destruct Hpick as [?|[?|[?|[?|[?|?]]]]];
      [exists 0%nat|exists 1%nat|exists 2%nat|exists 3%nat|exists 4%nat|exists 5%nat];
      (split; [lia|]);
      (split; [intros k l Hk Hkl;
               do 5 (destruct k as [|k]; [simpl in Hkl; inv_ret Hkl; lia|]); lia
              |eexists; split; [reflexivity|lia]]). }
  destruct Hsel as [sz Hsel]. exists sz. split; [done|].
  by apply StaticArrayAlloc_sizes_selected.
Qed.

(** The shared description of a successful call: the class the size loop
    selected, the allocated descriptor of that class that holds the returned
    address, and the new [space_available]. *)
Lemma StaticArrayAlloc_success s req s' p :
  arena_ok (ArrayArena s) ->
  StaticArrayAlloc s req = Ret (s', p) -> p <> NULL ->
  exists sz c l' k,
    class_selected (ArrayArena s) req sz /\
    BlockSize_E_to_Int !! sz = Some c /\
    lists (ArrayArena s') !! sz = Some l' /\ block_size l' = c /\
    0 <= k < len l' /\ blocks l' !! Z.to_nat k = Some (mkBlock p false) /\
    space_available (ArrayArena s')
    = to_size_t (space_available (ArrayArena s) - c).
Proof.
  intros Hok H Hp. unfold StaticArrayAlloc in H. inv_bind H.
  destruct (space_available (ArrayArena s) <? req); [by inv_ret H|].
  inv_bind H. inv_bind H. inv_bind H. destruct v2 as [a1 loc1]. inv_ret H.
  pose proof E2 as Hsp.
  apply StaticArrayAlloc_sizes_spec in Hsp as (_ & Hsp & _); [|done|done].
  destruct (StaticArrayAlloc_sizes_cases (ArrayArena s) req (mkLocals false 0 NULL) Hok)
    as [[_ Hnone]|(sz & Hsel & Hclass)].
  { rewrite Hnone in E2. by inv_ret E2. }
  rewrite Hclass in E2.
  apply StaticArrayAlloc_class_post in E2 as (Hno & Hyes); [|done].
  destruct (found_block loc1) eqn:Hf.
  - destruct (Hyes eq_refl) as (l & l' & k & Hl & Hl' & Hbs & Hsa & Hk & Hkb).
    rewrite Nat2Z.id in Hl, Hl'.
    exists sz, (block_size l), l', k. simpl. rewrite Hsp, Hsa.
    split_and!; try done; try lia.
    destruct Hok as (_ & Hbsl & _).
    by rewrite <- Hbsl, list_lookup_fmap, Hl.
  - destruct (Hno eq_refl) as [Hbp _]. simpl in Hbp. by destruct Hp.
Qed.


(** In every reachable state, a call of [StaticArrayAlloc] that returns an
    address lowers [space_available] by the block size of the selected
    class, not by the size requested (in [size_t] arithmetic). *)
Theorem alloc_charges_the_class_size s req s' p :
  reachable s ->
  StaticArrayAlloc s req = Ret (s', p) -> p <> NULL ->
  exists sz c,
    class_selected (ArrayArena s) req sz /\
    BlockSize_E_to_Int !! sz = Some c /\
    space_available (ArrayArena s')
    = to_size_t (space_available (ArrayArena s) - c).
Proof.
  intros Hr H Hp.
  apply (reachable_arena_ok ArrayArenaPool_addr_pos VEC_ARRAY_ARENA_SIZE_fits) in Hr.
  destruct (StaticArrayAlloc_success _ _ _ _ Hr H Hp)
    as (sz & c & l' & k & Hsel & Hc & _ & _ & _ & _ & Hsp).
  by exists sz, c.
Qed.

(** ** StaticArrayPoolInit on the static initialiser *)

Lemma assert_true : assert true = Ret tt.
Proof. unfold assert. by destruct NDEBUG. Qed.

(** The inner loop of [StaticArrayPoolInit] on a list with room for [n]
    more descriptors and a pool with room for [n] more blocks: it returns,
    descriptor [j + k] receives the address at offset [acc + k * block_size]
    and is marked free, and the descriptors below [j] are not touched. *)
Lemma StaticArrayPoolInit_blocks_run n : forall j list acc,
  0 <= j -> (Z.to_nat j + n <= length (blocks list))%nat ->
  0 <= acc -> 0 < block_size list ->
  acc + Z.of_nat n * block_size list <= VEC_ARRAY_ARENA_SIZE ->
  exists list',
    StaticArrayPoolInit_blocks n j list acc
    = Ret (list', acc + Z.of_nat n * block_size list) /\
    len list' = len list /\ block_size list' = block_size list /\
    length (blocks list') = length (blocks list) /\
    (forall k, (k < n)%nat ->
       blocks list' !! (Z.to_nat j + k)%nat
       = Some (mkBlock (ArrayArenaPool_addr + (acc + Z.of_nat k * block_size list)) true)) /\
    (forall k, (k < Z.to_nat j)%nat -> blocks list' !! k = blocks list !! k).
Proof.
  induction n as [|n IH]; intros j list acc Hj Hcap Hacc Hbs Hfit.
  - exists list. simpl. rewrite Z.add_0_r. split_and!; try done. intros k Hk. lia.
  - destruct (lookup_lt_is_Some_2 (blocks list) (Z.to_nat j)) as [b0 Hb0]; [lia|].
    pose proof (lookup_lt_Some _ _ _ Hb0) as Hlt.
    cbn [StaticArrayPoolInit_blocks].
    assert (Ha1 : (acc <? VEC_ARRAY_ARENA_SIZE) = true) by (apply Z.ltb_lt; nia).
    rewrite Ha1, assert_true. simpl.
    unfold write_ptr, write_is_free, read_block, write_block.
    destruct (Z.ltb_spec j 0); [lia|]. rewrite Hb0. simpl.
    destruct (Nat.ltb_spec (Z.to_nat j) (length (blocks list))); [|lia]. simpl.
    rewrite list_lookup_insert_eq by done. simpl.
    rewrite length_insert.
    destruct (Nat.ltb_spec (Z.to_nat j) (length (blocks list))); [|lia]. simpl.
    rewrite list_insert_insert_eq.
    assert (Hsmall : to_size_t (acc + block_size list) = acc + block_size list).
    { apply to_size_t_small. nia. }
    rewrite Hsmall.
    assert (Ha2 : (acc + block_size list <=? VEC_ARRAY_ARENA_SIZE) = true)
      by (apply Z.leb_le; nia).
    rewrite Ha2, assert_true. simpl.
    set (list1 := set_blocks list
                    (<[Z.to_nat j := mkBlock (ArrayArenaPool_addr + acc) true]> (blocks list))).
    destruct (IH (j + 1) list1 (acc + block_size list))
      as (list' & Hrun & Hlen & Hbs' & Hlength & Hnew & Hold).
    { lia. }
    { unfold list1. simpl. rewrite length_insert. lia. }
    { lia. }
    { done. }
    { unfold list1. simpl. nia. }
    exists list'. unfold list1 in *. simpl in *. rewrite length_insert in Hlength.
    split; [etransitivity; [exact Hrun|do 2 f_equal; lia]|].
    split; [done|]. split; [done|]. split; [done|]. split.
    + intros k Hk. destruct k as [|k].
      * rewrite Nat.add_0_r, Hold by lia.
        rewrite list_lookup_insert_eq by done. do 3 f_equal. lia.
      * replace (Z.to_nat j + S k)%nat with (Z.to_nat (j + 1) + k)%nat by lia.
        rewrite Hnew by lia. do 3 f_equal. lia.
    + intros k Hk. rewrite Hold by lia. by rewrite list_lookup_insert_ne by lia.
Qed.

Lemma tiles_app rs1 : forall rs2 a b c,
  tiles rs1 a b -> tiles rs2 b c -> tiles (rs1 ++ rs2) a c.
Proof.
  induction rs1 as [|r rs1 IH]; intros rs2 a b c H1 H2; simpl in *.
  - by subst.
  - destruct H1 as (? & ? & ?). split_and!; try done. by eapply IH.
Qed.

(** Descriptors that hold the addresses [a], [a + bs], [a + 2 bs], ... and
    are free: their ranges tile [a .. a + n bs]. *)
Lemma tiles_of_fresh_blocks n : forall (bl : list ArrayPoolBlock_S) bs a,
  0 < bs ->
  (forall k, (k < n)%nat -> bl !! k = Some (mkBlock (a + Z.of_nat k * bs) true)) ->
  tiles (map (fun b => (ptr b, bs)) (take n bl)) a (a + Z.of_nat n * bs) /\
  Forall (fun b => is_free b = true) (take n bl).
Proof.
  induction n as [|n IH]; intros bl bs a Hbs Hbl.
  - simpl. split; [lia|constructor].
  - destruct bl as [|b bl]; [by specialize (Hbl 0%nat ltac:(lia))|].
    destruct (IH bl bs (a + bs) Hbs) as [Ht Hf].
    { intros k Hk. specialize (Hbl (S k) ltac:(lia)).
      change ((b :: bl) !! S k) with (bl !! k) in Hbl.
      rewrite Hbl. do 2 f_equal. lia. }
    pose proof (Hbl 0%nat ltac:(lia)) as Hb0. simpl in Hb0. inv_ret Hb0.
    simpl. split.
    + split; [lia|]. split; [done|].
      by replace (a + Z.of_nat (S n) * bs) with (a + bs + Z.of_nat n * bs) by lia.
    + by constructor.
Qed.

(** The outer loop on lists that fit: it returns, keeps [len] and
    [block_size], frees every live descriptor, and the live ranges tile the
    pool from offset [acc] on, list after list. *)
Lemma StaticArrayPoolInit_lists_run ls : forall acc,
  0 <= acc ->
  Forall (fun l => 0 <= len l <= Z.of_nat (length (blocks l)) /\ 0 < block_size l) ls ->
  acc + described_bytes ls <= VEC_ARRAY_ARENA_SIZE ->
  exists ls',
    StaticArrayPoolInit_lists ls acc = Ret ls' /\
    len <$> ls' = len <$> ls /\ block_size <$> ls' = block_size <$> ls /\
    Forall (fun l => Forall (fun b => is_free b = true) (live_blocks l)) ls' /\
    tiles (flat_map list_ranges ls') (ArrayArenaPool_addr + acc)
      (ArrayArenaPool_addr + (acc + described_bytes ls)).
Proof.
  induction ls as [|l rest IH]; intros acc Hacc Hall Hfit.
  - exists []. simpl. unfold described_bytes. simpl.
    split_and!; try done. f_equal. lia.
  - apply Forall_cons in Hall as [[Hlen Hbs] Hrest].
    unfold described_bytes in *. simpl in Hfit.
    assert (Hrest_nonneg : 0 <= fold_right Z.add 0
              (map (fun l => len l * block_size l) rest)).
    { clear -Hrest. induction Hrest as [|x xs [? ?] _ IHx]; simpl; [lia|nia]. }
    destruct (StaticArrayPoolInit_blocks_run (Z.to_nat (len l)) 0 l acc)
      as (l' & Hrun & Hlen' & Hbs' & Hlength & Hnew & _);
      [lia|lia|lia|done|rewrite Z2Nat.id by lia; nia|].
    rewrite Z2Nat.id in Hrun by lia.
    destruct (IH (acc + len l * block_size l)) as (rest' & Hrun' & Hl & Hb & Hf & Ht);
      [nia|done|lia|].
    exists (l' :: rest').
    split; [cbn [StaticArrayPoolInit_lists]; rewrite Hrun; simpl;
            by rewrite Hrun'|].
    rewrite !fmap_cons, Hlen', Hbs', Hl, Hb. cbn [flat_map].
    destruct (tiles_of_fresh_blocks (Z.to_nat (len l)) (blocks l') (block_size l)
                (ArrayArenaPool_addr + acc) Hbs) as [Ht0 Hf0].
    { intros k Hk. specialize (Hnew k Hk).
      change (Z.to_nat 0 + k)%nat with k in Hnew.
      rewrite Hnew. do 2 f_equal. lia. }
    rewrite Z2Nat.id in Ht0 by lia.
    split; [done|]. split; [done|]. split.
    + constructor; [|done]. unfold live_blocks. by rewrite Hlen'.
    + apply (tiles_app _ _ _ (ArrayArenaPool_addr + acc + len l * block_size l)).
      * unfold list_ranges, live_blocks. by rewrite Hlen', Hbs'.
      * replace (ArrayArenaPool_addr + acc + len l * block_size l)
          with (ArrayArenaPool_addr + (acc + len l * block_size l)) by lia.
        cbn [fold_right map]. rewrite (Z.add_assoc acc). exact Ht.
Qed.

(** The default initial lengths describe exactly the usable bytes. *)
Lemma described_bytes_static :
  described_bytes (lists ArrayArena_static) = usable_bytes.
Proof.
  pose proof VEC_ARRAY_ARENA_SIZE_fits as [Hge Hlt]. unfold SIZE_T_MODULUS in Hlt.
  unfold described_bytes, ArrayArena_static, usable_bytes. cbn [lists map fold_right len block_size].
  unfold BLOCKS_1024_LIST_INIT_LEN, BLOCKS_512_LIST_INIT_LEN, BLOCKS_256_LIST_INIT_LEN,
    BLOCKS_128_LIST_INIT_LEN, BLOCKS_64_LIST_INIT_LEN, BLOCKS_32_LIST_INIT_LEN.
  rewrite !to_size_t_small
    by (unfold SIZE_T_MODULUS; Z.div_mod_to_equations; lia).
  Z.div_mod_to_equations; lia.
Qed.

(** The shared description of the first [StaticArrayPoolInit]: in both
    builds the call on the static initialiser returns, sets the flag, keeps
    the lengths and [space_available], marks every live descriptor free, and
    the live ranges tile the usable part of the pool, largest class first. *)
Lemma StaticArrayPoolInit_static :
  exists s,
    StaticArrayPoolInit state_static = Ret s /\
    arena_initialized (ArrayArena s) = true /\
    space_available (ArrayArena s) = usable_bytes /\
    len <$> lists (ArrayArena s) = len <$> lists ArrayArena_static /\
    block_size <$> lists (ArrayArena s) = BlockSize_E_to_Int /\
    ArrayArenaPool s = ArrayArenaPool state_static /\
    all_free (ArrayArena s) /\
    tiles (live_ranges (ArrayArena s)) ArrayArenaPool_addr
      (ArrayArenaPool_addr + usable_bytes).
Proof.
  pose proof VEC_ARRAY_ARENA_SIZE_fits as [Hge Hlt].
  pose proof (ArrayArena_static_ok VEC_ARRAY_ARENA_SIZE_fits) as (Hall & Hbs & _).
  assert (Husable : 0 <= usable_bytes <= VEC_ARRAY_ARENA_SIZE).
  { unfold usable_bytes. Z.div_mod_to_equations; lia. }
  destruct (StaticArrayPoolInit_lists_run (lists ArrayArena_static) 0)
    as (ls' & Hrun & Hlen & Hbs' & Hfree & Htiles).
  { done. }
  { assert (Hpos : Forall (fun l => 0 < block_size l) (lists ArrayArena_static)).
    { unfold ArrayArena_static. cbn [lists]. repeat constructor. }
    clear -Hall Hpos. induction Hall as [|l ls (? & _) _ IH]; [constructor|].
    apply Forall_cons in Hpos as [? ?]. constructor; [done|by apply IH]. }
  { rewrite described_bytes_static. lia. }
  rewrite described_bytes_static in Htiles.
  eexists. split.
  { unfold StaticArrayPoolInit. cbn [ArrayArena state_static].
    change (arena_initialized ArrayArena_static) with false.
    cbn [negb]. rewrite assert_true. cbn [mbind result_bind].
    rewrite Hrun. reflexivity. }
  cbn [ArrayArena set_arena lists arena_initialized space_available ArrayArenaPool].
  split; [done|]. split.
  { unfold ArrayArena_static. cbn [space_available].
    apply to_size_t_small. fold usable_bytes. unfold SIZE_T_MODULUS in *. lia. }
  split; [done|]. split; [by rewrite Hbs'|]. split; [done|]. split; [done|].
  by rewrite Z.add_0_r in Htiles.
Qed.

Lemma allocated_bytes_all_free a : all_free a -> allocated_bytes a = 0.
Proof.
  unfold all_free, allocated_bytes. generalize (lists a). intros ls Hfree.
  induction Hfree as [|l ls' Hl _ IH]; [done|]. cbn [map fold_right].
  rewrite IH. unfold count_allocated.
  assert (Hnil : List.filter (fun b => negb (is_free b)) (live_blocks l) = []).
  { clear -Hl. induction Hl as [|b bs Hb _ IHb]; [done|].
    simpl. by rewrite Hb. }
  rewrite Hnil. simpl. lia.
Qed.

(** In both builds, the first [StaticArrayPoolInit] returns, after which
    [StaticArrayPoolIsInitialized] answers true; it keeps the initial
    lengths and leaves every live
    descriptor free, with [space_available] equal to the usable bytes
    [VEC_ARRAY_ARENA_SIZE - VEC_ARRAY_ARENA_SIZE mod 32]: the space
    accounting holds with nothing allocated. *)
Theorem init_frees_every_block_and_accounts_for_the_pool :
  exists s,
    StaticArrayPoolInit state_static = Ret s /\
    StaticArrayPoolIsInitialized s = true /\
    len <$> lists (ArrayArena s) = len <$> lists ArrayArena_static /\
    all_free (ArrayArena s) /\
    space_available (ArrayArena s) = usable_bytes /\
    allocated_bytes (ArrayArena s) = 0 /\
    space_accounting (ArrayArena s).
Proof.
  destruct StaticArrayPoolInit_static
    as (s & Hrun & Hinit & Hsp & Hlen & _ & _ & Hfree & _).
  pose proof (allocated_bytes_all_free _ Hfree) as Hzero.
  exists s. unfold space_accounting. rewrite Hzero, Hsp.
  split_and!; try done. lia.
Qed.

(** After the first [StaticArrayPoolInit] the live descriptors, read list
    by list from the 1024 list down and by ascending index, hold strictly
    ascending addresses: each block begins where the one before ends, the
    first at [ArrayArenaPool] and the last ending at the usable size. *)
Theorem init_tiles_the_usable_pool :
  exists s,
    StaticArrayPoolInit state_static = Ret s /\
    tiles (live_ranges (ArrayArena s)) ArrayArenaPool_addr
      (ArrayArenaPool_addr + usable_bytes).
Proof.
  destruct StaticArrayPoolInit_static as (s & Hrun & _ & _ & _ & _ & _ & _ & Ht).
  by exists s.
Qed.

(** Ranges that tile an interval lie inside it, in order. *)
Lemma tiles_ordered rs : forall a b,
  tiles rs a b ->
  a <= b /\
  (forall i r, rs !! i = Some r -> a <= r.1 /\ r.1 + r.2 <= b /\ 0 < r.2) /\
  (forall i j r1 r2, (i < j)%nat -> rs !! i = Some r1 -> rs !! j = Some r2 ->
     r1.1 + r1.2 <= r2.1).
Proof.
  induction rs as [|r rs IH]; intros a b Ht; simpl in Ht.
  - subst. split; [lia|]. split; intros; done.
  - destruct Ht as (Hr1 & Hr2 & Ht). destruct (IH _ _ Ht) as (Hab & Hin & Hord).
    split; [lia|]. split.
    + intros i r' Hi. destruct i as [|i]; simpl in Hi.
      * inv_ret Hi. lia.
      * destruct (Hin _ _ Hi) as (? & ? & ?). lia.
    + intros i j r1 r2 Hij Hi Hj. destruct j as [|j]; [lia|]. simpl in Hj.
      destruct i as [|i]; simpl in Hi.
      * inv_ret Hi. destruct (Hin _ _ Hj) as (? & ? & ?). lia.
      * apply (Hord i j); [lia|done|done].
Qed.

Lemma tiles_no_overlap rs a b : tiles rs a b -> no_overlap rs.
Proof.
  intros Ht. destruct (tiles_ordered _ _ _ Ht) as (_ & _ & Hord).
  intros i j r1 r2 Hij Hi Hj. unfold overlap.
  destruct (Nat.lt_total i j) as [Hlt|[?|Hlt]]; [|done|].
  - pose proof (Hord _ _ _ _ Hlt Hi Hj).
    apply andb_false_iff. right. apply Z.ltb_ge. lia.
  - pose proof (Hord _ _ _ _ Hlt Hj Hi).
    apply andb_false_iff. left. apply Z.ltb_ge. lia.
Qed.

(** After the first [StaticArrayPoolInit] no two live descriptors overlap,
    and every live descriptor lies inside the pool. *)
Theorem init_leaves_no_overlap :
  exists s,
    StaticArrayPoolInit state_static = Ret s /\
    no_overlap (live_ranges (ArrayArena s)) /\
    forall i r, live_ranges (ArrayArena s) !! i = Some r ->
      ArrayArenaPool_addr <= r.1 /\
      r.1 + r.2 <= ArrayArenaPool_addr + VEC_ARRAY_ARENA_SIZE.
Proof.
  destruct StaticArrayPoolInit_static as (s & Hrun & _ & _ & _ & _ & _ & _ & Ht).
  exists s. split; [done|]. split; [by eapply tiles_no_overlap|].
  destruct (tiles_ordered _ _ _ Ht) as (_ & Hin & _).
  intros i r Hi. destruct (Hin _ _ Hi) as (? & ? & _).
  assert (usable_bytes <= VEC_ARRAY_ARENA_SIZE)
    by (unfold usable_bytes; Z.div_mod_to_equations; lia).
  lia.
Qed.

(** ** A StaticArrayRealloc that moves the block *)

Lemma memcpy_Ret pool dst src n pool' :
  memcpy pool dst src n = Ret pool' ->
  0 <= dst - ArrayArenaPool_addr /\ 0 <= src - ArrayArenaPool_addr /\ 0 <= n /\
  length pool' = length pool /\
  (forall k, 0 <= k < n ->
     pool' !! Z.to_nat (dst - ArrayArenaPool_addr + k)
     = pool !! Z.to_nat (src - ArrayArenaPool_addr + k)) /\
  (forall o, (o < Z.to_nat (dst - ArrayArenaPool_addr))%nat \/
             (Z.to_nat (dst - ArrayArenaPool_addr + n) <= o)%nat ->
     pool' !! o = pool !! o).
Proof.
  unfold memcpy.
  set (d := dst - ArrayArenaPool_addr). set (sr := src - ArrayArenaPool_addr).
  destruct (Z.leb_spec 0 d); [|discriminate].
  destruct (Z.leb_spec 0 sr); [|discriminate].
  destruct (Z.leb_spec 0 n); [|discriminate].
  destruct (Z.leb_spec (d + n) (Z.of_nat (length pool))); [|discriminate].
  destruct (Z.leb_spec (sr + n) (Z.of_nat (length pool))); [|discriminate].
  simpl. intros Hm.
  destruct ((d + n <=? sr) || (sr + n <=? d)); [|discriminate]. inv_ret Hm.
  assert (Hl1 : length (take (Z.to_nat d) pool) = Z.to_nat d)
    by (rewrite length_take; lia).
  assert (Hl2 : length (take (Z.to_nat n) (drop (Z.to_nat sr) pool)) = Z.to_nat n)
    by (rewrite length_take, length_drop; lia).
  split_and!; try done.
  - rewrite !length_app, Hl1, Hl2, length_drop. lia.
  - intros k Hk. rewrite lookup_app_r by lia. rewrite Hl1.
    rewrite lookup_app_l by lia. rewrite lookup_take_lt by lia.
    rewrite lookup_drop. f_equal. lia.
  - intros o [Ho|Ho].
    + rewrite lookup_app_l by lia. by rewrite lookup_take_lt by lia.
    + rewrite lookup_app_r by lia. rewrite Hl1.
      rewrite lookup_app_r by lia. rewrite Hl2.
      rewrite lookup_drop. f_equal. lia.
Qed.

Lemma StaticArrayAlloc_pool s req s' p :
  StaticArrayAlloc s req = Ret (s', p) -> ArrayArenaPool s' = ArrayArenaPool s.
Proof.
  intros H. unfold StaticArrayAlloc in H. inv_bind H.
  destruct (space_available (ArrayArena s) <? req); [by inv_ret H|].
  inv_bind H. inv_bind H. inv_bind H. destruct v2 as [a1 loc1]. by inv_ret H.
Qed.

Lemma StaticArrayFree_pool s p s' :
  StaticArrayFree s p = Ret s' -> ArrayArenaPool s' = ArrayArenaPool s.
Proof. intros H. unfold StaticArrayFree in H. inv_bind H. by inv_ret H. Qed.

(** When [StaticArrayRealloc] has to move an allocated block (the request
    is neither a best fit nor zero) and its inner [StaticArrayAlloc] returns
    the address [tmp], then, if the call returns, it returns [tmp]; the first
    [min(old class size, req_bytes)] bytes at [tmp] are the bytes that stood
    at [p]; every byte of the pool outside that destination range is as
    before; and [p] is no longer reported allocated. *)
Theorem realloc_moves_the_bytes_and_frees_the_old_block s p req sz idx l b c
    s1 tmp s2 q :
  Helper_FindBlock (ArrayArena s) p = Ret (Some (sz, idx)) ->
  read_list (ArrayArena s) sz = Ret l ->
  read_block l idx = Ret b ->
  is_free b = false ->
  BlockSize_E_to_Int !! Z.to_nat sz = Some c ->
  ~ (block_size l / 2 < req <= block_size l) -> req <> 0 ->
  StaticArrayAlloc s req = Ret (s1, tmp) -> tmp <> NULL ->
  StaticArrayRealloc s p req = Ret (s2, q) ->
  q = tmp /\
  (forall k, 0 <= k < Z.min c req ->
     ArrayArenaPool s2 !! Z.to_nat (tmp - ArrayArenaPool_addr + k)
     = ArrayArenaPool s !! Z.to_nat (p - ArrayArenaPool_addr + k)) /\
  (forall o, (o < Z.to_nat (tmp - ArrayArenaPool_addr))%nat \/
             (Z.to_nat (tmp - ArrayArenaPool_addr + Z.min c req) <= o)%nat ->
     ArrayArenaPool s2 !! o = ArrayArenaPool s !! o) /\
  StaticArrayIsAlloc s2 p = Ret false.
Proof.
  intros Hfind Hl Hb Hfree Hc Hfit Hreq Halloc Htmp H.
  unfold StaticArrayRealloc in H. rewrite Hfind in H. cbn [mbind result_bind] in H.
  rewrite Hl in H. cbn [mbind result_bind] in H.
  rewrite Hb in H. cbn [mbind result_bind] in H. rewrite Hfree in H.
  assert (Hbest : (block_size l / 2 <? req) && (req <=? block_size l) = false).
  { apply andb_false_iff.
    destruct (Z.ltb_spec (block_size l / 2) req); [|by left].
    destruct (Z.leb_spec req (block_size l)); [|by right]. destruct Hfit. lia. }
  rewrite Hbest in H.
  destruct (Z.eqb_spec 0 req) as [|_]; [lia|].
  rewrite Halloc in H. cbn [mbind result_bind] in H.
  destruct (Z.eqb_spec tmp NULL) as [|_]; [done|]. cbn [negb] in H.
  rewrite Hc in H. inv_bind H. rename v into pool, E into Hcpy.
  inv_bind H. rename E into Hfr. injection H as -> ->.
  assert (Hn : (if c <? req then c else req) = Z.min c req).
  { destruct (Z.ltb_spec c req); lia. }
  rewrite Hn in Hcpy.
  apply memcpy_Ret in Hcpy as (_ & _ & _ & _ & Hcopy & Hrest).
  pose proof (StaticArrayFree_pool _ _ _ Hfr) as Hpool. simpl in Hpool.
  rewrite (StaticArrayAlloc_pool _ _ _ _ Halloc) in Hcopy, Hrest.
  rewrite Hpool.
  split; [done|]. split; [done|]. split; [done|].
  by eapply StaticArrayFree_then_IsAlloc.
Qed.

(** ** What a lookup that returns has established *)

(** When [Helper_FindBlock] reports a block, in either build, the address
    is not null and the pair it hands back names a descriptor that is in
    use (index below [len]) and holds exactly that address. *)
Theorem lookup_hit_names_a_live_descriptor_at_the_address a p sz idx :
  Helper_FindBlock a p = Ret (Some (sz, idx)) ->
  p <> NULL /\
  exists list b, read_list a sz = Ret list /\ read_block list idx = Ret b /\
    ptr b = p /\ 0 <= idx < len list.
Proof. apply Helper_FindBlock_Some. Qed.

(** With NDEBUG, in every reachable state, the lookup of a non-null address
    returns the first live descriptor that holds it, in the order list by
    list from the 1024 list down and by ascending index. *)
Theorem lookup_returns_the_first_descriptor s p sz idx :
  NDEBUG = true -> reachable s -> p <> NULL ->
  first_at (ArrayArena s) p sz idx ->
  Helper_FindBlock (ArrayArena s) p = Ret (Some (Z.of_nat sz, idx)).
Proof.
  intros HN Hr Hp Hfirst.
  apply (reachable_arena_ok ArrayArenaPool_addr_pos VEC_ARRAY_ARENA_SIZE_fits) in Hr.
  by apply Helper_FindBlock_first.
Qed.




(** ** The invariant, spelled out *)


End Further.

(** * The further properties at concrete pools *)

(** A pool of 2080 bytes holds a free 32-byte block after [Init]; a
    request of 10 bytes fails all the same. *)
Lemma alloc_below_16_bytes_always_fails_witness :
  let c := build 2080 true in
  let s := state_after c [Init] in
  StaticArrayAlloc (cfg := c) s 10 = Ret (s, NULL).
Proof.
  cbv zeta.
  apply (alloc_below_16_bytes_always_fails (cfg := build 2080 true)
           (build_addr_pos _ _) ltac:(by vm_compute)
           (state_after (build 2080 true) [Init]) 10).
  - reflexivity.
  - exists [Init]. by vm_compute.
  - lia.
Defined.

(** With assertions, at a pool of 2048 bytes after [Init], the one call
    that returns is one that asks for more than is available. *)
Lemma alloc_with_assertions_never_allocates_witness :
  let d := build 2048 false in
  let s := state_after d [Init] in
  space_available (ArrayArena s) < 4000 /\ NULL = NULL /\ s = s.
Proof.
  cbv zeta.
  apply (alloc_with_assertions_never_allocates (cfg := build 2048 false)
           (build_addr_pos _ _) ltac:(by vm_compute)
           (state_after (build 2048 false) [Init]) 4000
           (state_after (build 2048 false) [Init]) NULL).
  - reflexivity.
  - exists [Init]. by vm_compute.
  - by vm_compute.
Defined.

(** Address 4100 lies inside the first 1024-byte block of a pool of 2048
    bytes but is the start of none. *)
Lemma unknown_address_is_ignored_witness :
  let c := build 2048 true in
  let s := state_after c [Init] in
  StaticArrayFree (cfg := c) s 4100 = Ret s /\
  StaticArrayIsAlloc (cfg := c) s 4100 = Ret false /\
  forall req, StaticArrayRealloc (cfg := c) s 4100 req = Ret (s, NULL).
Proof.
  cbv zeta.
  apply (unknown_address_is_ignored (cfg := build 2048 true)
           (build_addr_pos _ _) ltac:(by vm_compute)
           (state_after (build 2048 true) [Init]) 4100).
  - exists [Init]. by vm_compute.
  - by left.
  - right. intros l b Hl Hb.
    assert (HF : Forall (fun l => Forall (fun b => ptr b <> 4100) (live_blocks l))
                   (lists (ArrayArena (state_after (build 2048 true) [Init])))).
    { vm_compute. repeat first [discriminate | constructor]. }
    rewrite Forall_forall in HF. specialize (HF l Hl).
    rewrite Forall_forall in HF. exact (HF b Hb).
Defined.

(** After [Init; Alloc(200); Free(4096)] on a pool of 256 bytes the block
    at 4096 is free, and cannot be reallocated. *)
Lemma realloc_of_unallocated_address_fails_witness :
  let c := build 256 true in
  let s := state_after c [Init; Alloc 200; Free 4096] in
  StaticArrayRealloc (cfg := c) s 4096 100 = Ret (s, NULL).
Proof.
  cbv zeta.
  apply (realloc_of_unallocated_address_fails (cfg := build 256 true)
           (state_after (build 256 true) [Init; Alloc 200; Free 4096]) 4096 100).
  by vm_compute.
Defined.

(** After [Init; Alloc(200)] on a pool of 256 bytes the block at 4096 is
    allocated. *)
Lemma realloc_to_zero_frees_witness :
  let c := build 256 true in
  let s := state_after c [Init; Alloc 200] in
  StaticArrayRealloc (cfg := c) s 4096 0 =
    (s' ← StaticArrayFree (cfg := c) s 4096; Ret (s', NULL)).
Proof.
  cbv zeta.
  apply (realloc_to_zero_frees (cfg := build 256 true)
           (build_addr_pos _ _) ltac:(by vm_compute)
           (state_after (build 256 true) [Init; Alloc 200]) 4096).
  - exists [Init; Alloc 200]. by vm_compute.
  - by vm_compute.
Defined.

Lemma free_then_is_alloc_is_false_witness :
  let c := build 256 true in
  StaticArrayIsAlloc (cfg := c) (state_after c [Init; Alloc 200; Free 4096]) 4096
    = Ret false.
Proof.
  cbv zeta.
  apply (free_then_is_alloc_is_false (cfg := build 256 true)
           (state_after (build 256 true) [Init; Alloc 200]) 4096).
  by vm_compute.
Defined.


Lemma alloc_charges_the_class_size_witness :
  let c := build 2048 true in
  let s := state_after c [Init] in
  let s' := state_after c [Init; Alloc 1000] in
  exists sz k,
    class_selected (ArrayArena s) 1000 sz /\
    BlockSize_E_to_Int !! sz = Some k /\
    space_available (ArrayArena s') = to_size_t (space_available (ArrayArena s) - k).
Proof.
  cbv zeta.
  apply (alloc_charges_the_class_size (cfg := build 2048 true)
           (build_addr_pos _ _) ltac:(by vm_compute)
           (state_after (build 2048 true) [Init]) 1000
           (state_after (build 2048 true) [Init; Alloc 1000]) 5120).
  - exists [Init]. by vm_compute.
  - by vm_compute.
  - by vm_compute.
Defined.

(** A pool of 2000 bytes: 1984 usable bytes in five blocks. *)
Lemma init_frees_every_block_and_accounts_for_the_pool_witness :
  let c := build 2000 true in
  exists s, StaticArrayPoolInit (cfg := c) (@state_static c) = Ret s /\
    StaticArrayPoolIsInitialized s = true /\
    len <$> lists (ArrayArena s) = len <$> lists (@ArrayArena_static c) /\
    all_free (ArrayArena s) /\
    space_available (ArrayArena s) = @usable_bytes c /\
    allocated_bytes (ArrayArena s) = 0 /\
    space_accounting (cfg := c) (ArrayArena s).
Proof.
  cbv zeta.
  apply (init_frees_every_block_and_accounts_for_the_pool (cfg := build 2000 true)).
  by vm_compute.
Defined.

Lemma init_tiles_the_usable_pool_witness :
  let c := build 2000 true in
  exists s, StaticArrayPoolInit (cfg := c) (@state_static c) = Ret s /\
    tiles (live_ranges (ArrayArena s)) 4096 (4096 + @usable_bytes c).
Proof.
  cbv zeta.
  apply (init_tiles_the_usable_pool (cfg := build 2000 true)).
  by vm_compute.
Defined.

Lemma init_leaves_no_overlap_witness :
  let c := build 2000 true in
  exists s, StaticArrayPoolInit (cfg := c) (@state_static c) = Ret s /\
    no_overlap (live_ranges (ArrayArena s)) /\
    forall i r, live_ranges (ArrayArena s) !! i = Some r ->
      4096 <= r.1 /\ r.1 + r.2 <= 4096 + 2000.
Proof.
  cbv zeta.
  apply (init_leaves_no_overlap (cfg := build 2000 true)).
  by vm_compute.
Defined.

(** A pool of 384 bytes after [Init; Alloc(100)] with the byte 7 stored at
    4352, the block [Alloc] returned: [Realloc(4352, 200)] moves to the
    256-byte block at 4096. *)
Lemma realloc_moves_the_bytes_and_frees_the_old_block_witness :
  let c := build 384 true in
  let s := state_after c [Init; Alloc 100; Store 4352 7] in
  let s2 := state_after c [Init; Alloc 100; Store 4352 7; Realloc 4352 200] in
  4096 = 4096 /\
  (forall k, 0 <= k < Z.min 128 200 ->
     ArrayArenaPool s2 !! Z.to_nat (4096 - 4096 + k) =
     ArrayArenaPool s !! Z.to_nat (4352 - 4096 + k)) /\
  (forall o, (o < Z.to_nat (4096 - 4096))%nat \/
             (Z.to_nat (4096 - 4096 + Z.min 128 200) <= o)%nat ->
     ArrayArenaPool s2 !! o = ArrayArenaPool s !! o) /\
  StaticArrayIsAlloc (cfg := c) s2 4352 = Ret false.
Proof.
  cbv zeta.
  eapply (realloc_moves_the_bytes_and_frees_the_old_block (cfg := build 384 true)
            (state_after (build 384 true) [Init; Alloc 100; Store 4352 7])
            4352 200 3 0 _ (USED 4352) 128
            (state_after (build 384 true) [Init; Alloc 100; Store 4352 7; Alloc 200])
            4096
            (state_after (build 384 true)
               [Init; Alloc 100; Store 4352 7; Realloc 4352 200])
            4096).
  - by vm_compute.
  - by vm_compute.
  - by vm_compute.
  - reflexivity.
  - reflexivity.
  - vm_compute. intros [_ H]. by apply H.
  - lia.
  - by vm_compute.
  - by vm_compute.
  - by vm_compute.
Defined.

Lemma lookup_hit_names_a_live_descriptor_at_the_address_witness :
  let c := build 256 true in
  let a := ArrayArena (state_after c [Init; Alloc 200]) in
  4096 <> NULL /\
  exists list b, read_list a 2 = Ret list /\ read_block list 0 = Ret b /\
    ptr b = 4096 /\ 0 <= 0 < len list.
Proof.
  cbv zeta.
  apply (lookup_hit_names_a_live_descriptor_at_the_address (cfg := build 256 true)
           (ArrayArena (state_after (build 256 true) [Init; Alloc 200])) 4096 2 0).
  by vm_compute.
Defined.

(** After [Init] on a pool of 2048 bytes the address 5120 is held by the
    descriptor at index 1 of the 1024 list and by no other. *)
Lemma lookup_returns_the_first_descriptor_witness :
  let c := build 2048 true in
  Helper_FindBlock (cfg := c) (ArrayArena (state_after c [Init])) 5120
    = Ret (Some (Z.of_nat 0, 1)).
Proof.
  cbv zeta.
  apply (lookup_returns_the_first_descriptor (cfg := build 2048 true)
           (build_addr_pos _ _) ltac:(by vm_compute)
           (state_after (build 2048 true) [Init]) 5120 0%nat 1).
  - reflexivity.
  - exists [Init]. by vm_compute.
  - by vm_compute.
  - split.
    + eexists _, (FREE 5120). split; [by vm_compute|]. split; [by vm_compute|].
      split; by vm_compute.
    + intros k l j b Hl Hj Hb Hp. destruct k as [|k]; [right|left; lia].
      split; [done|]. vm_compute in Hl. injection Hl as <-.
      destruct (Z.eq_dec j 0) as [->|]; [|lia].
      vm_compute in Hb. injection Hb as <-. vm_compute in Hp. discriminate Hp.
Defined.


